(** * Research workflow orchestration: a shallow embedding

    This development embeds, as executable Rocq definitions, the workflow
    state ([ResearchState]) and the graph of [ResearchWorkflow] from
    [src/langgraph/workflow.py], together with the job endpoints
    [cancel_job] and [submit_review] from
    [src/backend/app/api/v1/endpoints/jobs.py], and states the properties of
    the orchestration engine as theorems about these definitions.  It also
    embeds the token, role and rate-limiting code of
    [src/backend/app/core/security.py], the validators of
    [src/backend/app/core/dependencies.py] and [list_research_jobs] of
    [src/backend/app/api/v1/endpoints/research_jobs.py].

    Conventions.
    - A Python [dict] with string keys is a [gmap string value]; a Python
      list is a [list].
    - An object mutated in place (the [ResearchState] handed from node to
      node, the job table behind [JobService]) is a component of an explicit
      [World] threaded through a state-and-exception monad: what a suite has
      written before it raises stays written, as in Python.
    - Quality scores are Python floats; they are compared with the literals
      [0.8] and [0.6] only, and are modelled as rationals. *)

From Stdlib Require Import Ascii String QArith Lqa.
From Stdlib Require DecimalString.
From stdpp Require Import gmap strings list fin_maps.

#[local] Set Warnings "-register-all".
#[local] Open Scope string_scope.

(** ** Python values and exceptions *)

(** The values that flow through [Dict[str, Any]] fields. *)
Inductive value : Type :=
  | VNone
  | VBool (b : bool)
  | VInt (z : Z)
  | VStr (s : string)
  | VList (l : list value)
  | VDict (d : gmap string value).

(** Python truthiness, as used by [x or {}]. *)
Definition truthy (v : value) : bool :=
  match v with
  | VNone => false
  | VBool b => b
  | VInt z => negb (z =? 0)%Z
  | VStr s => negb (bool_decide (s = ""))
  | VList l => negb (bool_decide (l = []))
  | VDict d => negb (bool_decide (d = ∅))
  end.

(** [d.get(k)]: the value under [k], [None] when absent. *)
Definition py_get (d : gmap string value) (k : string) : value :=
  default VNone (d !! k).

(** [d.get(k, dflt)]. *)
Definition py_get_default (d : gmap string value) (k : string) (dflt : value) : value :=
  default dflt (d !! k).

(** Exceptions, with the text [str(e)] gives.  These are instances of
    [Exception], the ones an [except Exception] clause catches; a
    [BaseException] that is no [Exception] ([asyncio.CancelledError],
    [KeyboardInterrupt], [SystemExit]) has no image in this type, and the
    statements below say nothing of a call that raises one. *)
Inductive exn : Type :=
  | KeyError (k : string)
  | ValueError (msg : string)
  | TypeError (msg : string)
  | HTTPException (status_code : nat) (detail : string)
  | ConflictError
  | NotFoundError
  | CheckpointCorruptionError
  | InvalidTransitionError
  | ValidationError (msg : string)
  | Exception (msg : string).

Definition str_exn (e : exn) : string :=
  match e with
  | KeyError k => "'" +:+ k +:+ "'"
  | ValueError msg | TypeError msg | ValidationError msg | Exception msg => msg
  | HTTPException _ detail => detail
  | ConflictError => "conflict"
  | NotFoundError => "not found"
  | CheckpointCorruptionError => "checkpoint corruption"
  | InvalidTransitionError => "invalid transition"
  end.

(** The outcome of a call: a returned value or a raised exception. *)
Inductive outcome (A : Type) : Type :=
  | Returned (a : A)
  | Raised (e : exn).
Arguments Returned {A} a.
Arguments Raised {A} e.

Definition obind {A B} (m : outcome A) (k : A → outcome B) : outcome B :=
  match m with
  | Returned a => k a
  | Raised e => Raised e
  end.

#[global] Instance outcome_ret : MRet outcome := @Returned.
#[global] Instance outcome_bind : MBind outcome := fun A B k m => obind m k.

(** [d[k]]: raises [KeyError] when [k] is absent. *)
Definition py_item (d : gmap string value) (k : string) : outcome value :=
  match d !! k with
  | Some v => Returned v
  | None => Raised (KeyError k)
  end.

(** Projections of a value onto the type an annotation declares.  Python
    does not check annotations; the embedding is typed, and a value outside
    the declared type has no image in it. *)
Definition as_str (v : value) : outcome string :=
  match v with
  | VStr s => Returned s
  | _ => Raised (TypeError "str expected")
  end.

Definition as_list (v : value) : outcome (list value) :=
  match v with
  | VList l => Returned l
  | _ => Raised (TypeError "list expected")
  end.

Definition as_dict (v : value) : outcome (gmap string value) :=
  match v with
  | VDict d => Returned d
  | _ => Raised (TypeError "dict expected")
  end.

Fixpoint omap_list {A B} (f : A → outcome B) (l : list A) : outcome (list B) :=
  match l with
  | [] => Returned []
  | a :: l' =>
      b ← f a; bs ← omap_list f l'; Returned (b :: bs)
  end.

Definition as_str_list (v : value) : outcome (list string) :=
  l ← as_list v; omap_list as_str l.

(** ** UUIDs

    [uuid.UUID] of the Python standard library: a 128-bit integer, printed
    by [str] as 32 lower-case hexadecimal digits grouped 8-4-4-4-12 and read
    back by [UUID(hex)], which is

      [hex = hex.replace('urn:', '').replace('uuid:', '')]
      [hex = hex.strip('{}').replace('-', '')]
      [if len(hex) != 32: raise ValueError(...)]
      [int = int_(hex, 16)]

    followed by the range check [0 <= int < 1 << 128].  A string is read
    as its list of characters, a character being an [ascii] (code points
    below 256). *)

Abbreviation UUID := N.

Definition valid_uuid (u : UUID) : Prop := (u < 2 ^ 128)%N.

Definition hex_digit (d : N) : ascii :=
  match d with
  | 0 => "0" | 1 => "1" | 2 => "2" | 3 => "3" | 4 => "4" | 5 => "5"
  | 6 => "6" | 7 => "7" | 8 => "8" | 9 => "9" | 10 => "a" | 11 => "b"
  | 12 => "c" | 13 => "d" | 14 => "e" | _ => "f"
  end%N%char.

Definition hex_value (c : ascii) : option N :=
  let n := N_of_ascii c in
  if (48 <=? n)%N && (n <=? 57)%N then Some (n - 48)%N
  else if (97 <=? n)%N && (n <=? 102)%N then Some (n - 87)%N
  else if (65 <=? n)%N && (n <=? 70)%N then Some (n - 55)%N
  else None.

(** ['%0kx' % n], most significant digit first. *)
Fixpoint hex_digits (k : nat) (n : N) : list ascii :=
  match k with
  | O => []
  | S k' => hex_digits k' (n / 16) ++ [hex_digit (n mod 16)]
  end.

(** The value in base 16 of a list of digits. *)
Definition hex_to_N (l : list ascii) : option N :=
  foldl (fun acc c => a ← acc; v ← hex_value c; Some (a * 16 + v)%N) (Some 0%N) l.

Definition dash : ascii := "-"%char.

Definition uuid_str (u : UUID) : string :=
  let h := hex_digits 32 u in
  string_of_list_ascii
    (take 8 h ++ dash :: take 4 (drop 8 h) ++ dash :: take 4 (drop 12 h)
       ++ dash :: take 4 (drop 16 h) ++ dash :: drop 20 h).

(** The characters [str] of a UUID is made of, dashes apart. *)
Definition hex_chars : list ascii := list_ascii_of_string "0123456789abcdef".

(** [old] is a prefix of [s]. *)
Fixpoint text_starts_with (old s : list ascii) : bool :=
  match old, s with
  | [], _ => true
  | _ :: _, [] => false
  | a :: old', c :: s' => bool_decide (a = c) && text_starts_with old' s'
  end.

(** [s.replace(old, "")] for a non-empty [old]: the occurrences of [old]
    are removed from left to right, without overlap; [skip] counts the
    characters of the occurrence being removed that are still ahead. *)
Fixpoint text_remove_from (old : list ascii) (skip : nat) (s : list ascii) : list ascii :=
  match s with
  | [] => []
  | c :: s' =>
      match skip with
      | S k => text_remove_from old k s'
      | O =>
          if text_starts_with old s then text_remove_from old (length old - 1) s'
          else c :: text_remove_from old 0 s'
      end
  end.

Definition text_remove (old : string) (s : list ascii) : list ascii :=
  text_remove_from (list_ascii_of_string old) 0 s.

(** [s.lstrip(chars)] and [s.strip(chars)]. *)
Fixpoint text_lstrip (chars : list ascii) (s : list ascii) : list ascii :=
  match s with
  | [] => []
  | c :: s' => if bool_decide (c ∈ chars) then text_lstrip chars s' else s
  end.

Definition text_strip (chars : string) (s : list ascii) : list ascii :=
  let chars := list_ascii_of_string chars in
  reverse (text_lstrip chars (reverse (text_lstrip chars s))).

(** The white space [int] skips around a numeral: the ASCII blanks, and the
    two other code points below 256 that are Unicode white space (next line
    and no-break space). *)
Definition int_space (c : ascii) : bool :=
  let n := N_of_ascii c in
  ((9 <=? n) && (n <=? 13) || (n =? 32) || (n =? 133) || (n =? 160))%N.

Fixpoint skip_space (s : list ascii) : list ascii :=
  match s with
  | [] => []
  | c :: s' => if int_space c then skip_space s' else s
  end.

Definition underscore : ascii := "_"%char.

(** The digits of a numeral in base 16, with single underscores between
    digits: the value read so far and what follows the numeral.  [prev]
    tells that the character before was an underscore; a numeral does not
    end in one. *)
Fixpoint int_digits (prev : bool) (acc : N) (s : list ascii) : option (N * list ascii) :=
  match s with
  | [] => if prev then None else Some (acc, [])
  | c :: s' =>
      if bool_decide (c = underscore) then
        if prev then None else int_digits true acc s'
      else
        match hex_value c with
        | Some d => int_digits false (acc * 16 + d) s'
        | None => if prev then None else Some (acc, s)
        end
  end.

(** [int(s, 16)]: white space, a sign, the prefix [0x] or [0X] (which one
    underscore may follow), the digits, white space; [None] stands for the
    [ValueError]. *)
Definition int16 (s : list ascii) : option Z :=
  let s := skip_space s in
  let negative := bool_decide (head s = Some "-"%char) in
  let s := if bool_decide (head s = Some "+"%char) || negative then tail s else s in
  let s :=
    match s with
    | zero :: x :: s' =>
        if bool_decide (zero = "0"%char) && bool_decide (x ∈ ["x"%char; "X"%char]) then
          if bool_decide (head s' = Some underscore) then tail s' else s'
        else s
    | _ => s
    end in
  if bool_decide (head s = Some underscore) then None
  else
    match int_digits false 0 s with
    | Some (n, rest) =>
        if bool_decide (length rest = length s) then None
        else if bool_decide (skip_space rest = []) then
          Some (if negative then - Z.of_N n else Z.of_N n)%Z
        else None
    | None => None
    end.

(** [UUID(hex)].  The message of the error of [int] is kept up to its
    colon; Python appends the [repr] of the text. *)
Definition uuid_parse (s : string) : outcome UUID :=
  let hex := list_ascii_of_string s in
  let hex := text_remove "uuid:" (text_remove "urn:" hex) in
  let hex := filter (fun c => c ≠ dash) (text_strip "{}" hex) in
  if bool_decide (length hex = 32%nat) then
    match int16 hex with
    | Some n =>
        if bool_decide (0 ≤ n < 2 ^ 128)%Z then Returned (Z.to_N n)
        else Raised (ValueError "int is out of range (need a 128-bit value)")
    | None => Raised (ValueError "invalid literal for int() with base 16")
    end
  else Raised (ValueError "badly formed hexadecimal UUID string").

(** ** Messages

    [langchain.schema.BaseMessage] is an external library class; a message
    is modelled by its fields.  Its (de)serializers [msg.dict()] and
    [BaseMessage.parse_obj] are the library's and are taken as an interface;
    [field_codec] below is one implementation of it. *)

Record BaseMessage : Type := {
  msg_type : string;
  msg_content : string;
  additional_kwargs : gmap string value;
}.

Definition HumanMessage (content : string) : BaseMessage :=
  {| msg_type := "human"; msg_content := content; additional_kwargs := ∅ |}.

Definition AIMessage (content : string) : BaseMessage :=
  {| msg_type := "ai"; msg_content := content; additional_kwargs := ∅ |}.

Class MessageCodec : Type := {
  msg_dict : BaseMessage → value;
  parse_obj : value → outcome BaseMessage;
}.

(** A field-by-field codec. *)
Definition field_msg_dict (m : BaseMessage) : value :=
  VDict (<["content" := VStr (msg_content m)]>
        (<["additional_kwargs" := VDict (additional_kwargs m)]>
        (<["type" := VStr (msg_type m)]> ∅))).

Definition field_parse_obj (v : value) : outcome BaseMessage :=
  d ← as_dict v;
  c ← py_item d "content"; c ← as_str c;
  k ← as_dict (py_get_default d "additional_kwargs" (VDict ∅));
  t ← py_item d "type"; t ← as_str t;
  Returned {| msg_type := t; msg_content := c; additional_kwargs := k |}.

Definition field_codec : MessageCodec :=
  {| msg_dict := field_msg_dict; parse_obj := field_parse_obj |}.

(** ** ResearchState *)

Record ResearchState : Type := {
  job_id : UUID;
  query : string;
  constraints : gmap string value;
  output_config : gmap string value;
  messages : list BaseMessage;
  sources : list value;
  claims : list value;
  citations : list value;
  artifacts : list value;
  current_node : string;
  errors : list string;
  metadata : gmap string value;
}.

(** [x or {}] on a dictionary. *)
Definition or_empty (d : gmap string value) : gmap string value :=
  if truthy (VDict d) then d else ∅.

(** [x or {}] on an optional argument whose default is [None]. *)
Definition opt_or_empty (d : option (gmap string value)) : gmap string value :=
  match d with
  | Some d => or_empty d
  | None => ∅
  end.

(** [ResearchState.__init__]. *)
Definition ResearchState_init (job_id : UUID) (query : string)
    (constraints output_config : option (gmap string value)) : ResearchState :=
  {| job_id := job_id;
     query := query;
     constraints := opt_or_empty constraints;
     output_config := opt_or_empty output_config;
     messages := [];
     sources := [];
     claims := [];
     citations := [];
     artifacts := [];
     current_node := "start";
     errors := [];
     metadata := ∅ |}.

(** Attribute assignments. *)
Definition set_messages (x : list BaseMessage) (s : ResearchState) : ResearchState :=
  {| job_id := job_id s; query := query s; constraints := constraints s;
     output_config := output_config s; messages := x; sources := sources s;
     claims := claims s; citations := citations s; artifacts := artifacts s;
     current_node := current_node s; errors := errors s; metadata := metadata s |}.

Definition set_sources (x : list value) (s : ResearchState) : ResearchState :=
  {| job_id := job_id s; query := query s; constraints := constraints s;
     output_config := output_config s; messages := messages s; sources := x;
     claims := claims s; citations := citations s; artifacts := artifacts s;
     current_node := current_node s; errors := errors s; metadata := metadata s |}.

Definition set_claims (x : list value) (s : ResearchState) : ResearchState :=
  {| job_id := job_id s; query := query s; constraints := constraints s;
     output_config := output_config s; messages := messages s; sources := sources s;
     claims := x; citations := citations s; artifacts := artifacts s;
     current_node := current_node s; errors := errors s; metadata := metadata s |}.

Definition set_citations (x : list value) (s : ResearchState) : ResearchState :=
  {| job_id := job_id s; query := query s; constraints := constraints s;
     output_config := output_config s; messages := messages s; sources := sources s;
     claims := claims s; citations := x; artifacts := artifacts s;
     current_node := current_node s; errors := errors s; metadata := metadata s |}.

Definition set_artifacts (x : list value) (s : ResearchState) : ResearchState :=
  {| job_id := job_id s; query := query s; constraints := constraints s;
     output_config := output_config s; messages := messages s; sources := sources s;
     claims := claims s; citations := citations s; artifacts := x;
     current_node := current_node s; errors := errors s; metadata := metadata s |}.

Definition set_current_node (x : string) (s : ResearchState) : ResearchState :=
  {| job_id := job_id s; query := query s; constraints := constraints s;
     output_config := output_config s; messages := messages s; sources := sources s;
     claims := claims s; citations := citations s; artifacts := artifacts s;
     current_node := x; errors := errors s; metadata := metadata s |}.

Definition set_errors (x : list string) (s : ResearchState) : ResearchState :=
  {| job_id := job_id s; query := query s; constraints := constraints s;
     output_config := output_config s; messages := messages s; sources := sources s;
     claims := claims s; citations := citations s; artifacts := artifacts s;
     current_node := current_node s; errors := x; metadata := metadata s |}.

Definition set_metadata (x : gmap string value) (s : ResearchState) : ResearchState :=
  {| job_id := job_id s; query := query s; constraints := constraints s;
     output_config := output_config s; messages := messages s; sources := sources s;
     claims := claims s; citations := citations s; artifacts := artifacts s;
     current_node := current_node s; errors := errors s; metadata := x |}.

Section Serialization.
Context `{MessageCodec}.

(** [ResearchState.to_dict]. *)
Definition to_dict (s : ResearchState) : gmap string value :=
  <["job_id" := VStr (uuid_str (job_id s))]>
  (<["query" := VStr (query s)]>
  (<["constraints" := VDict (constraints s)]>
  (<["output_config" := VDict (output_config s)]>
  (<["messages" := VList (msg_dict <$> messages s)]>
  (<["sources" := VList (sources s)]>
  (<["claims" := VList (claims s)]>
  (<["citations" := VList (citations s)]>
  (<["artifacts" := VList (artifacts s)]>
  (<["current_node" := VStr (current_node s)]>
  (<["errors" := VList (VStr <$> errors s)]>
  (<["metadata" := VDict (metadata s)]> ∅))))))))))).

(** The [constraints or {}] of [__init__] applied to what
    [data.get(key, {})] returned. *)
Definition init_dict_arg (v : value) : outcome (gmap string value) :=
  if truthy v then as_dict v else Returned ∅.

(** [ResearchState.from_dict]. *)
Definition from_dict (data : gmap string value) : outcome ResearchState :=
  jid ← py_item data "job_id"; jid ← as_str jid; jid ← uuid_parse jid;
  q ← py_item data "query"; q ← as_str q;
  c ← init_dict_arg (py_get_default data "constraints" (VDict ∅));
  oc ← init_dict_arg (py_get_default data "output_config" (VDict ∅));
  msgs ← as_list (py_get_default data "messages" (VList []));
  msgs ← omap_list parse_obj msgs;
  srcs ← as_list (py_get_default data "sources" (VList []));
  cls ← as_list (py_get_default data "claims" (VList []));
  cits ← as_list (py_get_default data "citations" (VList []));
  arts ← as_list (py_get_default data "artifacts" (VList []));
  cur ← as_str (py_get_default data "current_node" (VStr "start"));
  errs ← as_str_list (py_get_default data "errors" (VList []));
  meta ← as_dict (py_get_default data "metadata" (VDict ∅));
  Returned
    {| job_id := jid; query := q; constraints := c; output_config := oc;
       messages := msgs; sources := srcs; claims := cls; citations := cits;
       artifacts := arts; current_node := cur; errors := errs;
       metadata := meta |}.
End Serialization.

(** ** Jobs *)

(** Modelled from the spec: [app.models.job.JobStatus] is not under [src/].
    The statuses are those of the spec's job state machine ("created,
    queued, planning, retrieving, synthesizing, drafting, fact_checking,
    visualizing, reviewing, awaiting_human, formatting, completed", with
    "failed", "cancelled", "retrying" and "cancelling"), under the names
    [workflow.py] and [jobs.py] use for them. *)
Inductive JobStatus : Type :=
  | CREATED | QUEUED | PLANNING | RETRIEVING | SYNTHESIZING | DRAFTING
  | FACT_CHECKING | VISUALIZING | REVIEWING | AWAITING_HUMAN | FORMATTING
  | COMPLETED | FAILED | CANCELLING | CANCELLED | RETRYING.

#[global] Instance JobStatus_eq_dec : EqDecision JobStatus.
Proof. solve_decision. Defined.

(** Modelled from the spec: [app.models.job.Job] is not under [src/].  Of
    the spec's job record ("job id, owner id, ..., status, ..., error list
    (ordered, append-only)") the owner, the status and the error list are
    kept; the job id is the key of the job table. *)
Record Job : Type := {
  job_owner : N;
  job_status : JobStatus;
  job_errors : list string;
}.

Definition set_job_status (s : JobStatus) (j : Job) : Job :=
  {| job_owner := job_owner j; job_status := s; job_errors := job_errors j |}.

(** Modelled from the spec: [JobService.update_job_status]
    ([app.services.job_service]) is not under [src/].  It is the write of
    [Job.status] its callers in [workflow.py] and [jobs.py] issue; a job id
    the table does not have is left absent.  The write itself is modelled;
    the transition table of the specification (a status not reachable from
    the current one is rejected) is not enforced here, and the statements
    below name the status a write is made from where they depend on it. *)
Definition update_job_status (jid : UUID) (s : JobStatus) (jobs : gmap N Job) : gmap N Job :=
  alter (set_job_status s) jid jobs.

(** Modelled from the spec: [JobService.get_job_by_id]
    ([app.services.job_service]) is not under [src/].  It finds the job with
    that id when it belongs to the given owner. *)
Definition get_job_by_id (jid : UUID) (user_id : N) (jobs : gmap N Job) : option Job :=
  j ← jobs !! jid;
  if decide (job_owner j = user_id) then Some j else None.

(** ** Stateful calls

    A computation over a store [S] returns the store as it left it together
    with the outcome of the call; a raise keeps the writes made before it. *)

Definition M (S A : Type) : Type := S → S * outcome A.

Definition retM {S A} (a : A) : M S A := fun w => (w, Returned a).

Definition bindM {S A B} (m : M S A) (k : A → M S B) : M S B :=
  fun w =>
    match m w with
    | (w', Returned a) => k a w'
    | (w', Raised e) => (w', Raised e)
    end.

#[global] Instance M_ret {S} : MRet (M S) := fun A => retM.
#[global] Instance M_bind {S} : MBind (M S) := fun A B k m => bindM m k.

(** [raise e]. *)
Definition raise {S A} (e : exn) : M S A := fun w => (w, Raised e).

(** A call whose outcome does not touch the store. *)
Definition call {S A} (o : outcome A) : M S A := fun w => (w, o).

(** [try: body except Exception as e: handler(e)].  Every exception of
    [exn] is an [Exception] and is caught; what the clause lets through in
    Python (a [BaseException] that is no [Exception]) is outside [exn]. *)
Definition try_except {S A} (body : M S A) (handler : exn → M S A) : M S A :=
  fun w =>
    match body w with
    | (w', Returned a) => (w', Returned a)
    | (w', Raised e) => handler e w'
    end.

(** ** The workflow of [workflow.py] *)

(** What a node function returns: the state object it was handed (and has
    mutated in place), or a string. *)
Inductive NodeReturn : Type :=
  | RetState
  | RetStr (s : string).

(** The store of a run: the state object shared by the nodes and the job
    table behind [self.job_service]. *)
Record World : Type := {
  state : ResearchState;
  jobs : gmap N Job;
}.

Definition get_state : M World ResearchState := fun w => (w, Returned (state w)).

Definition modify_state (f : ResearchState → ResearchState) : M World () :=
  fun w => ({| state := f (state w); jobs := jobs w |}, Returned ()).

(** [await self.job_service.update_job_status(job_id, status)]. *)
Definition job_service_update_job_status (jid : UUID) (s : JobStatus) : M World () :=
  fun w => ({| state := state w; jobs := update_job_status jid s (jobs w) |}, Returned ()).

(** The dictionary [_create_research_plan] builds. *)
Record Plan : Type := {
  plan_summary : string;
  plan_sub_questions : list value;
  plan_sources : list value;
  plan_timeline : string;
}.

Definition plan_dict (p : Plan) : value :=
  VDict (<["summary" := VStr (plan_summary p)]>
        (<["sub_questions" := VList (plan_sub_questions p)]>
        (<["sources" := VList (plan_sources p)]>
        (<["timeline" := VStr (plan_timeline p)]> ∅)))).

(** The executors a [ResearchWorkflow] calls: the service methods (external
    collaborators) and the three methods [workflow.py] stubs, which a test
    double may replace.  An executor is modelled by what it returns or
    raises (an [Exception]) on the arguments it is handed.  In Python the
    arguments are the objects of the state themselves ([state.constraints],
    [state.output_config], the lists, and for [_quality_check] the state),
    so that an executor could also modify them in place; such executors are
    outside this model, which covers those that keep the executor contract
    of the specification (a stage has "no side effect on Job/Checkpoint
    state") and leave what they are handed as it is. *)
Record ResearchWorkflow : Type := {
  _create_research_plan : string → gmap string value → outcome Plan;
  retrieve_sources : string → value → gmap string value → outcome (list value);
  synthesize_evidence : list value → string → outcome (list value);
  create_draft : list value → list value → gmap string value → outcome value;
  verify_claims : list value → list value → outcome (list value * list value);
  create_visualizations : list value → list value → outcome (list value);
  _quality_check : ResearchState → outcome Q;
  _wait_for_human_approval : UUID → outcome string;
  generate_report :
    value → list value → list value → list value → gmap string value → outcome value;
}.

(** The three stubs as [workflow.py] has them. *)
Definition _create_research_plan_stub (query : string) (constraints : gmap string value)
    : outcome Plan :=
  Returned {| plan_summary := "Research plan for: " +:+ query;
              plan_sub_questions := [];
              plan_sources := [];
              plan_timeline := "2-3 hours" |}.

Definition _quality_check_stub (st : ResearchState) : outcome Q := Returned (85 # 100).

Definition _wait_for_human_approval_stub (jid : UUID) : outcome string := Returned "approve".

Section Nodes.
Variable self : ResearchWorkflow.

(** The [except Exception as e] suite shared by the node functions:
    [state.errors.append(f"<what> failed: {str(e)}")], then
    [state.current_node = "error"], then [return state]. *)
Definition node_except (what : string) (e : exn) : M World NodeReturn :=
  modify_state (fun s => set_errors (errors s ++ [what +:+ " failed: " +:+ str_exn e]) s);;
  modify_state (set_current_node "error");;
  mret RetState.

Definition _query_understanding_node : M World NodeReturn :=
  try_except
    (st ← get_state;
     job_service_update_job_status (job_id st) PLANNING;;
     plan ← call (_create_research_plan self (query st) (constraints st));
     modify_state (fun s => set_metadata (<["research_plan" := plan_dict plan]> (metadata s)) s);;
     modify_state (set_current_node "query_understanding");;
     modify_state (fun s => set_messages (messages s ++ [HumanMessage (query s)]) s);;
     modify_state (fun s => set_messages
       (messages s ++ [AIMessage ("Research plan created: " +:+ plan_summary plan)]) s);;
     mret RetState)
    (node_except "Query understanding").

Definition _retrieval_hub_node : M World NodeReturn :=
  try_except
    (st ← get_state;
     job_service_update_job_status (job_id st) RETRIEVING;;
     srcs ← call (retrieve_sources self (query st)
                    (py_get (metadata st) "research_plan") (constraints st));
     modify_state (set_sources srcs);;
     modify_state (set_current_node "retrieval_hub");;
     mret RetState)
    (node_except "Retrieval").

Definition _evidence_synthesis_node : M World NodeReturn :=
  try_except
    (st ← get_state;
     job_service_update_job_status (job_id st) SYNTHESIZING;;
     cls ← call (synthesize_evidence self (sources st) (query st));
     modify_state (set_claims cls);;
     modify_state (set_current_node "evidence_synthesis");;
     mret RetState)
    (node_except "Evidence synthesis").

Definition _drafting_node : M World NodeReturn :=
  try_except
    (st ← get_state;
     job_service_update_job_status (job_id st) DRAFTING;;
     draft ← call (create_draft self (claims st) (sources st) (output_config st));
     modify_state (fun s => set_metadata (<["draft" := draft]> (metadata s)) s);;
     modify_state (set_current_node "drafting");;
     mret RetState)
    (node_except "Drafting").

Definition _fact_checking_node : M World NodeReturn :=
  try_except
    (st ← get_state;
     job_service_update_job_status (job_id st) FACT_CHECKING;;
     vc ← call (verify_claims self (claims st) (sources st));
     modify_state (set_claims vc.1);;
     modify_state (set_citations vc.2);;
     modify_state (set_current_node "fact_checking");;
     mret RetState)
    (node_except "Fact checking").

Definition _visualization_node : M World NodeReturn :=
  try_except
    (st ← get_state;
     job_service_update_job_status (job_id st) VISUALIZING;;
     vis ← call (create_visualizations self (claims st) (sources st));
     modify_state (fun s => set_artifacts (artifacts s ++ vis) s);;
     modify_state (set_current_node "visualization");;
     mret RetState)
    (node_except "Visualization").

Definition _review_gate_node : M World NodeReturn :=
  try_except
    (st ← get_state;
     job_service_update_job_status (job_id st) REVIEWING;;
     quality_score ← call (_quality_check self st);
     if Qle_bool (8 # 10) quality_score then mret (RetStr "approve")
     else if Qle_bool (6 # 10) quality_score then mret (RetStr "request_changes")
     else mret (RetStr "human_review"))
    (node_except "Review gate").

Definition _human_approval_node : M World NodeReturn :=
  try_except
    (st ← get_state;
     approval ← call (_wait_for_human_approval self (job_id st));
     if bool_decide (approval = "approve") then mret (RetStr "approve")
     else mret (RetStr "request_changes"))
    (node_except "Human approval").

Definition _formatting_node : M World NodeReturn :=
  try_except
    (st ← get_state;
     job_service_update_job_status (job_id st) FORMATTING;;
     report ← call (generate_report self (py_get (metadata st) "draft") (claims st)
                      (citations st) (artifacts st) (output_config st));
     modify_state (fun s => set_artifacts (artifacts s ++ [report]) s);;
     modify_state (set_current_node "formatting");;
     job_service_update_job_status (job_id st) COMPLETED;;
     mret RetState)
    (node_except "Formatting").

(** [_review_gate_condition]. *)
Definition _review_gate_condition (st : ResearchState) : string := current_node st.
End Nodes.

(** ** The graph

    [langgraph.graph.StateGraph] is an external library.  It is modelled by
    what [workflow.py] relies on: named node functions, one outgoing edge
    per node or a condition whose result selects the next node in a branch
    map, and a run that hands the one state object from node to node.  A
    node's return value that is the state is that very object; a string
    return value is no state and leaves the object as the node left it. *)

Definition END : string := "__end__".

Record StateGraph : Type := {
  nodes : gmap string (M World NodeReturn);
  entry_point : option string;
  edges : gmap string string;
  branches : gmap string ((ResearchState → string) * gmap string string);
}.

Definition empty_graph : StateGraph :=
  {| nodes := ∅; entry_point := None; edges := ∅; branches := ∅ |}.

Definition add_node (name : string) (f : M World NodeReturn) (g : StateGraph) : StateGraph :=
  {| nodes := <[name := f]> (nodes g); entry_point := entry_point g;
     edges := edges g; branches := branches g |}.

Definition set_entry_point (name : string) (g : StateGraph) : StateGraph :=
  {| nodes := nodes g; entry_point := Some name; edges := edges g;
     branches := branches g |}.

Definition add_edge (src dst : string) (g : StateGraph) : StateGraph :=
  {| nodes := nodes g; entry_point := entry_point g;
     edges := <[src := dst]> (edges g); branches := branches g |}.

Definition add_conditional_edges (src : string) (cond : ResearchState → string)
    (ends : gmap string string) (g : StateGraph) : StateGraph :=
  {| nodes := nodes g; entry_point := entry_point g; edges := edges g;
     branches := <[src := (cond, ends)]> (branches g) |}.

(** The branch map of the review gate. *)
Definition review_gate_ends : gmap string string :=
  <["approve" := "formatting"]>
  (<["request_changes" := "drafting"]>
  (<["human_review" := "human_approval"]> ∅)).

(** [_create_workflow_graph], call by call. *)
Definition _create_workflow_graph (self : ResearchWorkflow) : StateGraph :=
  let workflow := empty_graph in
  let workflow := add_node "query_understanding" (_query_understanding_node self) workflow in
  let workflow := add_node "retrieval_hub" (_retrieval_hub_node self) workflow in
  let workflow := add_node "evidence_synthesis" (_evidence_synthesis_node self) workflow in
  let workflow := add_node "drafting" (_drafting_node self) workflow in
  let workflow := add_node "fact_checking" (_fact_checking_node self) workflow in
  let workflow := add_node "visualization" (_visualization_node self) workflow in
  let workflow := add_node "review_gate" (_review_gate_node self) workflow in
  let workflow := add_node "formatting" (_formatting_node self) workflow in
  let workflow := add_node "human_approval" (_human_approval_node self) workflow in
  let workflow := set_entry_point "query_understanding" workflow in
  let workflow := add_edge "query_understanding" "retrieval_hub" workflow in
  let workflow := add_edge "retrieval_hub" "evidence_synthesis" workflow in
  let workflow := add_edge "evidence_synthesis" "drafting" workflow in
  let workflow := add_edge "drafting" "fact_checking" workflow in
  let workflow := add_edge "fact_checking" "visualization" workflow in
  let workflow := add_edge "visualization" "review_gate" workflow in
  let workflow :=
    add_conditional_edges "review_gate" _review_gate_condition review_gate_ends workflow in
  let workflow := add_edge "human_approval" "drafting" workflow in
  let workflow := add_edge "formatting" END workflow in
  let workflow := add_edge "error" END workflow in
  workflow.

(** Where a run goes after node [n] has left the state [st]. *)
Inductive Route : Type :=
  | Goto (n : string)
  | NoBranch (key : string)
  | NoEdge.

Definition next_node (g : StateGraph) (n : string) (st : ResearchState) : Route :=
  match branches g !! n with
  | Some (cond, ends) =>
      match ends !! cond st with
      | Some m => Goto m
      | None => NoBranch (cond st)
      end
  | None =>
      match edges g !! n with
      | Some m => Goto m
      | None => NoEdge
      end
  end.

(** How a run stands: it reached [END], it failed, or it was cut short
    before starting node [next] (the fuel bounds the number of node
    executions). *)
Inductive RunStatus : Type :=
  | Finished
  | Failed (e : exn)
  | Interrupted (next : string).

Record Run : Type := {
  completed : list (string * ResearchState);
  run_world : World;
  run_status : RunStatus;
}.

(** The completed stages are recorded in order, each with the state it
    left. *)
Fixpoint run_from (g : StateGraph) (fuel : nat) (n : string) (w : World) : Run :=
  if decide (n = END) then {| completed := []; run_world := w; run_status := Finished |}
  else
    match fuel with
    | O => {| completed := []; run_world := w; run_status := Interrupted n |}
    | S fuel' =>
        match nodes g !! n with
        | None => {| completed := []; run_world := w; run_status := Failed (KeyError n) |}
        | Some f =>
            match f w with
            | (w', Raised e) =>
                {| completed := []; run_world := w'; run_status := Failed e |}
            | (w', Returned _) =>
                match next_node g n (state w') with
                | Goto m =>
                    let r := run_from g fuel' m w' in
                    {| completed := (n, state w') :: completed r;
                       run_world := run_world r; run_status := run_status r |}
                | NoBranch key =>
                    {| completed := [(n, state w')]; run_world := w';
                       run_status := Failed (KeyError key) |}
                | NoEdge =>
                    {| completed := [(n, state w')]; run_world := w';
                       run_status := Failed (ValueError ("no edge from " +:+ n)) |}
                end
            end
        end
    end.

(** [graph.ainvoke(state)]. *)
Definition ainvoke (g : StateGraph) (fuel : nat) (w : World) : Run :=
  match entry_point g with
  | Some n => run_from g fuel n w
  | None => {| completed := []; run_world := w;
               run_status := Failed (ValueError "no entry point") |}
  end.

(** [start_workflow], on the job table [jobs]. *)
Definition start_workflow (self : ResearchWorkflow) (fuel : nat) (job_id : UUID)
    (query : string) (constraints output_config : option (gmap string value))
    (jobs : gmap N Job) : Run :=
  let state := ResearchState_init job_id query constraints output_config in
  ainvoke (_create_workflow_graph self) fuel {| state := state; jobs := jobs |}.

(** What [start_workflow] returns when the run reaches [END]:
    [result.current_node]. *)
Definition start_workflow_result (r : Run) : outcome string :=
  match run_status r with
  | Finished => Returned (current_node (state (run_world r)))
  | Failed e => Raised e
  | Interrupted n => Raised (Exception ("interrupted before " +:+ n))
  end.

Definition stages (r : Run) : list string := (completed r).*1.

(** ** The job endpoints of [jobs.py] *)

(** What the endpoints act on: the job table and, per job, the workflow
    state its run holds. *)
Record Backend : Type := {
  db_jobs : gmap N Job;
  workflow_states : gmap N ResearchState;
}.

Definition get_backend : M Backend Backend := fun b => (b, Returned b).

Definition db_update_job_status (jid : UUID) (s : JobStatus) : M Backend () :=
  fun b => ({| db_jobs := update_job_status jid s (db_jobs b);
               workflow_states := workflow_states b |}, Returned ()).

(** The terminal statuses of the spec's glossary. *)
Definition terminal (s : JobStatus) : bool :=
  bool_decide (s ∈ [COMPLETED; FAILED; CANCELLED]).

(** Modelled from the spec: [LangGraphService.cancel_workflow]
    ([app.services.langgraph_service]) is not under [src/].  It is the
    [cancel(job_id)] of the specification, "no-op, returns error, if already
    terminal"; otherwise "a cancellation request sets Job.status to
    cancelling", and the engine acts on it at the next stage boundary. *)
Definition cancel_workflow (jid : UUID) : M Backend () :=
  b ← get_backend;
  match db_jobs b !! jid with
  | None => raise NotFoundError
  | Some job =>
      if terminal (job_status job) then raise InvalidTransitionError
      else db_update_job_status jid CANCELLING
  end.

(** The metadata key under which a review's instructions are kept for the
    next drafting pass. *)
Definition review_instructions_key : string := "review_instructions".

Definition carry_instructions (jid : UUID) (instructions : value) : M Backend () :=
  fun b =>
    ({| db_jobs := db_jobs b;
        workflow_states :=
          alter (fun s => set_metadata (<[review_instructions_key := instructions]> (metadata s)) s)
                jid (workflow_states b) |}, Returned ()).

(** Modelled from the spec: [LangGraphService.process_review]
    ([app.services.langgraph_service]) is not under [src/].  "On receipt:
    validates the job is currently in awaiting_human; validates the decision
    action is one of the three allowed values; routes approve to formatting,
    request_changes|reject to drafting, carrying any instructions into
    WorkflowState.metadata for the next drafting pass.  Receiving a decision
    for a job not awaiting review, or a second decision for the same pending
    gate, fails with a conflict error and has no side effect." *)
Definition process_review (jid : UUID) (action instructions : value) : M Backend () :=
  b ← get_backend;
  match db_jobs b !! jid with
  | None => raise NotFoundError
  | Some job =>
      if decide (job_status job = AWAITING_HUMAN) then
        match action with
        | VStr a =>
            if bool_decide (a = "approve") then
              carry_instructions jid instructions;;
              db_update_job_status jid FORMATTING
            else if bool_decide (a ∈ ["request_changes"; "reject"]) then
              carry_instructions jid instructions;;
              db_update_job_status jid DRAFTING
            else raise (ValidationError "unknown review action")
        | _ => raise (ValidationError "unknown review action")
        end
      else raise ConflictError
  end.

(** [submit_review]. *)
Definition submit_review (jid : UUID) (review_data : gmap string value) (current_user : N)
    : M Backend string :=
  b ← get_backend;
  match get_job_by_id jid current_user (db_jobs b) with
  | None => raise (HTTPException 404 "Job not found")
  | Some job =>
      process_review jid (py_get review_data "action") (py_get review_data "instructions");;
      mret "Review submitted successfully"
  end.

(** [cancel_job]. *)
Definition cancel_job (jid : UUID) (current_user : N) : M Backend string :=
  b ← get_backend;
  match get_job_by_id jid current_user (db_jobs b) with
  | None => raise (HTTPException 404 "Job not found")
  | Some job =>
      if bool_decide (job_status job ∈ [COMPLETED; FAILED]) then
        raise (HTTPException 400 "Cannot cancel completed or failed job")
      else
        cancel_workflow jid;;
        db_update_job_status jid FAILED;;
        mret "Job cancelled successfully"
  end.

(** ** Checkpoints

    The Checkpoint Store is not under [src/]: the checkpointer handed to
    [compile] is the graph library's.  The store below is that of the
    specification's data model; it serves to name the stages of a run that
    have a checkpoint.  The source has no operation that resumes a job:
    [start_workflow] is the only way into the graph. *)




Section Checkpointing.
Context `{MessageCodec}.



End Checkpointing.


(** ** Vocabulary for the statements *)

(** The world a node function leaves. *)
Definition exec (f : M World NodeReturn) (w : World) : World := (f w).1.

(** The world after [status] has been written for the job of the run. *)
Definition with_status (status : JobStatus) (w : World) : World :=
  {| state := state w; jobs := update_job_status (job_id (state w)) status (jobs w) |}.

(** The world after the [except] suite of a node has recorded [e]. *)
Definition failed_world (what : string) (e : exn) (w : World) : World :=
  {| state := set_current_node "error"
                (set_errors (errors (state w) ++ [what +:+ " failed: " +:+ str_exn e])
                   (state w));
     jobs := jobs w |}.

(** The nodes from the entry point to the review gate, in edge order. *)
Definition pipeline (self : ResearchWorkflow) : list (string * M World NodeReturn) :=
  [("query_understanding", _query_understanding_node self);
   ("retrieval_hub", _retrieval_hub_node self);
   ("evidence_synthesis", _evidence_synthesis_node self);
   ("drafting", _drafting_node self);
   ("fact_checking", _fact_checking_node self);
   ("visualization", _visualization_node self);
   ("review_gate", _review_gate_node self)].

(** Node functions applied one after the other. *)
Definition exec_all (fs : list (string * M World NodeReturn)) (w : World) : World :=
  foldl (fun w nf => exec nf.2 w) w fs.

(** The stages so completed, each with the state it left. *)
Fixpoint trail (fs : list (string * M World NodeReturn)) (w : World)
    : list (string * ResearchState) :=
  match fs with
  | [] => []
  | nf :: fs' => (nf.1, state (exec nf.2 w)) :: trail fs' (exec nf.2 w)
  end.

(** The nodes named by [path], looked up in the graph and applied in turn
    (a name the graph does not have is skipped). *)
Fixpoint exec_names (g : StateGraph) (path : list string) (w : World) : World :=
  match path with
  | [] => w
  | n :: path' =>
      match nodes g !! n with
      | Some f => exec_names g path' (exec f w)
      | None => exec_names g path' w
      end
  end.

(** For each node: the label of its failure message and the status it
    writes on entry ([_human_approval_node] writes none). *)
Definition stage_table : list (string * (string * option JobStatus)) :=
  [("query_understanding", ("Query understanding", Some PLANNING));
   ("retrieval_hub", ("Retrieval", Some RETRIEVING));
   ("evidence_synthesis", ("Evidence synthesis", Some SYNTHESIZING));
   ("drafting", ("Drafting", Some DRAFTING));
   ("fact_checking", ("Fact checking", Some FACT_CHECKING));
   ("visualization", ("Visualization", Some VISUALIZING));
   ("review_gate", ("Review gate", Some REVIEWING));
   ("human_approval", ("Human approval", None));
   ("formatting", ("Formatting", Some FORMATTING))].

Definition entered (entry : option JobStatus) (w : World) : World :=
  match entry with
  | Some status => with_status status w
  | None => w
  end.

(** The executor call of each node raises [e] in the world [w]. *)
Inductive executor_raises (self : ResearchWorkflow) (w : World) : string → exn → Prop :=
  | raises_query_understanding e :
      _create_research_plan self (query (state w)) (constraints (state w)) = Raised e →
      executor_raises self w "query_understanding" e
  | raises_retrieval_hub e :
      retrieve_sources self (query (state w)) (py_get (metadata (state w)) "research_plan")
        (constraints (state w)) = Raised e →
      executor_raises self w "retrieval_hub" e
  | raises_evidence_synthesis e :
      synthesize_evidence self (sources (state w)) (query (state w)) = Raised e →
      executor_raises self w "evidence_synthesis" e
  | raises_drafting e :
      create_draft self (claims (state w)) (sources (state w)) (output_config (state w))
        = Raised e →
      executor_raises self w "drafting" e
  | raises_fact_checking e :
      verify_claims self (claims (state w)) (sources (state w)) = Raised e →
      executor_raises self w "fact_checking" e
  | raises_visualization e :
      create_visualizations self (claims (state w)) (sources (state w)) = Raised e →
      executor_raises self w "visualization" e
  | raises_review_gate e :
      _quality_check self (state w) = Raised e →
      executor_raises self w "review_gate" e
  | raises_human_approval e :
      _wait_for_human_approval self (job_id (state w)) = Raised e →
      executor_raises self w "human_approval" e
  | raises_formatting e :
      generate_report self (py_get (metadata (state w)) "draft") (claims (state w))
        (citations (state w)) (artifacts (state w)) (output_config (state w)) = Raised e →
      executor_raises self w "formatting" e.

(** All the node functions of the graph, under the names [add_node] gives
    them. *)
Definition node_functions (self : ResearchWorkflow) : list (string * M World NodeReturn) :=
  (pipeline self ++ [("formatting", _formatting_node self);
                     ("human_approval", _human_approval_node self)])%list.

(** The values [current_node] is ever given: the initial one and those the
    node functions assign. *)
Definition node_marks : list string :=
  ["start"; "query_understanding"; "retrieval_hub"; "evidence_synthesis"; "drafting";
   "fact_checking"; "visualization"; "formatting"; "error"].

(** ** Test doubles and sample data *)

(** A workflow whose services succeed, with a quality check that always
    returns [quality] and the other two stubs as [workflow.py] has them. *)
Definition double (quality : Q) : ResearchWorkflow :=
  {| _create_research_plan := _create_research_plan_stub;
     retrieve_sources := fun _ _ _ => Returned [VStr "source"];
     synthesize_evidence := fun _ _ => Returned [VStr "claim"];
     create_draft := fun _ _ _ => Returned (VStr "draft");
     verify_claims := fun cls _ => Returned (cls, [VStr "citation"]);
     create_visualizations := fun _ _ => Returned [VStr "chart"];
     _quality_check := fun _ => Returned quality;
     _wait_for_human_approval := _wait_for_human_approval_stub;
     generate_report := fun _ _ _ _ _ => Returned (VStr "report") |}.

(** The same with a retrieval service that raises. *)
Definition double_failing_retrieval : ResearchWorkflow :=
  {| _create_research_plan := _create_research_plan_stub;
     retrieve_sources := fun _ _ _ => Raised (Exception "timeout");
     synthesize_evidence := fun _ _ => Returned [VStr "claim"];
     create_draft := fun _ _ _ => Returned (VStr "draft");
     verify_claims := fun cls _ => Returned (cls, [VStr "citation"]);
     create_visualizations := fun _ _ => Returned [VStr "chart"];
     _quality_check := _quality_check_stub;
     _wait_for_human_approval := _wait_for_human_approval_stub;
     generate_report := fun _ _ _ _ _ => Returned (VStr "report") |}.

Definition sample_job (status : JobStatus) : Job :=
  {| job_owner := 1; job_status := status; job_errors := [] |}.

Definition sample_jobs (status : JobStatus) : gmap N Job := {[ 7%N := sample_job status ]}.

Definition sample_world (status : JobStatus) : World :=
  {| state := ResearchState_init 7 "impact of X" None None; jobs := sample_jobs status |}.

Definition sample_backend (status : JobStatus) : Backend :=
  {| db_jobs := sample_jobs status;
     workflow_states := {[ 7%N := ResearchState_init 7 "impact of X" None None ]} |}.

Definition sample_state : ResearchState :=
  {| job_id := 7;
     query := "impact of X";
     constraints := {[ "max_sources" := VInt 5 ]};
     output_config := ∅;
     messages := [HumanMessage "impact of X"; AIMessage "Research plan created"];
     sources := [VDict {[ "origin" := VStr "web" ]}];
     claims := [VStr "claim"];
     citations := [];
     artifacts := [VStr "chart"];
     current_node := "visualization";
     errors := ["Retrieval failed: timeout"];
     metadata := {[ "draft" := VStr "draft" ]} |}.

(** The names [add_node] is called with. *)
Definition node_names : list string :=
  ["query_understanding"; "retrieval_hub"; "evidence_synthesis"; "drafting";
   "fact_checking"; "visualization"; "review_gate"; "formatting"; "human_approval"].

(** ** Tokens and the current user ([app/core/security.py])

    Conventions of this part.
    - A [datetime] is the number of microseconds since the epoch and a
      [timedelta] a number of microseconds, both in [Z]; every
      [datetime.utcnow()] is an explicit argument, one per read of the
      clock.
    - [jose.jwt] is an external library.  A token is opaque to
      [security.py], which only hands it from [jwt.encode] to [jwt.decode];
      [jwt_decode] is [None] where the library raises [JWTError] (bad
      signature, other algorithm, token expired at the time of the call).
    - The [headers] of an [HTTPException] are not kept. *)

Class JOSE : Type := {
  Token : Type;
  jwt_encode : gmap string value → string → string → Token;
  jwt_decode : Token → string → list string → Z → option (gmap string value);
}.

(** [str(n)] of an [int]: the decimal numeral, with [-] for a negative
    number. *)
Definition py_str (n : Z) : string := DecimalString.NilZero.string_of_int (Z.to_int n).

(** [int(s)] of a [str] is Python's; it is taken as an interface.
    [decimal_int] below is one implementation, for plain decimal
    numerals. *)
Class PyInt : Type := {
  int_of_str : string → outcome Z;
}.

Definition decimal_int : PyInt :=
  {| int_of_str := fun s =>
       match DecimalString.NilZero.int_of_string s with
       | Some d => Returned (Z.of_int d)
       | None => Raised (ValueError "invalid literal for int() with base 10")
       end |}.

(** [int(v)]. *)
Definition py_int `{PyInt} (v : value) : outcome Z :=
  match v with
  | VInt z => Returned z
  | VBool b => Returned (if b then 1 else 0)%Z
  | VStr s => int_of_str s
  | VNone | VList _ | VDict _ =>
      Raised (TypeError "int() argument must be a string, a bytes-like object or a real number")
  end.

(** [v == s] for a string [s]. *)
Definition eq_str (v : value) (s : string) : bool :=
  match v with
  | VStr t => bool_decide (t = s)
  | _ => false
  end.

(** [sub in s] on strings. *)
Fixpoint str_contains (sub s : string) : bool :=
  String.prefix sub s
  || match s with
     | EmptyString => false
     | String _ s' => str_contains sub s'
     end.

(** [s in v] for a string [s]: membership in a list, substring of a string,
    key of a dictionary; the other values are not iterable. *)
Definition str_in (s : string) (v : value) : outcome bool :=
  match v with
  | VList l => Returned (existsb (fun x => eq_str x s) l)
  | VStr t => Returned (str_contains s t)
  | VDict d => Returned (bool_decide (is_Some (d !! s)))
  | VNone | VBool _ | VInt _ => Raised (TypeError "argument is not iterable")
  end.

Definition minutes (m : Z) : Z := (m * 60000000)%Z.
Definition days (d : Z) : Z := (d * 86400000000)%Z.

(** The settings a [SecurityManager] is constructed from. *)
Record SecurityManager : Type := {
  secret_key : string;
  algorithm : string;
  access_token_expire_minutes : Z;
  refresh_token_expire_days : Z;
}.

(** [if expires_delta:] on an [Optional[timedelta]]: [None] and the zero
    duration are both false. *)
Definition expiry (now : Z) (expires_delta : option Z) (dflt : Z) : Z :=
  match expires_delta with
  | Some d => if bool_decide (d ≠ 0%Z) then (now + d)%Z else (now + dflt)%Z
  | None => (now + dflt)%Z
  end.

(** The dictionary [to_encode] of [create_access_token] and of
    [create_refresh_token] after its [update]. *)
Definition to_encode (type : string) (expire : Z) (data : gmap string value)
    : gmap string value :=
  <["type" := VStr type]> (<["exp" := VInt expire]> data).

(** [roles or ["user"]]: the default replaces [None] and the empty list. *)
Definition roles_or_user (roles : option (list string)) : list string :=
  match roles with
  | Some (r :: rs) => r :: rs
  | Some [] | None => ["user"]
  end.

Record Tokens `{JOSE} : Type := {
  access_token : Token;
  refresh_token : Token;
  token_type : string;
  expires_in : Z;
}.

Section Security.
Context `{JOSE} `{PyInt}.
Variable self : SecurityManager.

(** [SecurityManager.create_access_token]. *)
Definition create_access_token (data : gmap string value) (expires_delta : option Z)
    (now : Z) : Token :=
  let expire := expiry now expires_delta (minutes (access_token_expire_minutes self)) in
  jwt_encode (to_encode "access" expire data) (secret_key self) (algorithm self).

(** [SecurityManager.create_refresh_token]. *)
Definition create_refresh_token (data : gmap string value) (expires_delta : option Z)
    (now : Z) : Token :=
  let expire := expiry now expires_delta (days (refresh_token_expire_days self)) in
  jwt_encode (to_encode "refresh" expire data) (secret_key self) (algorithm self).

(** [SecurityManager.verify_token]. *)
Definition verify_token (token : Token) (now : Z) : option (gmap string value) :=
  jwt_decode token (secret_key self) [algorithm self] now.

(** The dictionary [data] of [create_tokens]. *)
Definition token_data (user_id : Z) (email : string) (roles : option (list string))
    : gmap string value :=
  <["sub" := VStr (py_str user_id)]>
  (<["email" := VStr email]>
  (<["roles" := VList (VStr <$> roles_or_user roles)]> ∅)).

(** [SecurityManager.create_tokens]; the clock is read once for each
    token. *)
Definition create_tokens (user_id : Z) (email : string) (roles : option (list string))
    (now_access now_refresh : Z) : Tokens :=
  let data := token_data user_id email roles in
  {| access_token := create_access_token data None now_access;
     refresh_token := create_refresh_token data None now_refresh;
     token_type := "bearer";
     expires_in := (access_token_expire_minutes self * 60)%Z |}.

(** [not payload or payload.get("type") != type], on what [verify_token]
    returned. *)
Definition wrong_payload (payload : option (gmap string value)) (type : string) : bool :=
  match payload with
  | None => true
  | Some p => negb (truthy (VDict p)) || negb (eq_str (py_get p "type") type)
  end.

(** [SecurityManager.refresh_access_token]; the clock is read when the
    refresh token is verified and when the access token is made. *)
Definition refresh_access_token (refresh_token : Token) (now_verify now_create : Z)
    : option Token :=
  let payload := verify_token refresh_token now_verify in
  if wrong_payload payload "refresh" then None
  else
    let p := default ∅ payload in
    let access_data :=
      <["sub" := py_get p "sub"]>
      (<["email" := py_get p "email"]>
      (<["roles" := py_get_default p "roles" (VList [VStr "user"])]> ∅)) in
    Some (create_access_token access_data None now_create).

Definition unauthorized : exn := HTTPException 401 "Invalid authentication credentials".

Definition forbidden : exn := HTTPException 403 "Insufficient permissions".

(** [AuthDependencies.get_current_user], on the token of the
    credentials. *)
Definition get_current_user (token : Token) (now : Z) : outcome (gmap string value) :=
  let payload := verify_token token now in
  if wrong_payload payload "access" then Raised unauthorized
  else
    let p := default ∅ payload in
    let user_id := py_get p "sub" in
    match user_id with
    | VNone => Raised unauthorized
    | _ =>
        id ← py_int user_id;
        Returned (<["id" := VInt id]>
                 (<["email" := py_get p "email"]>
                 (<["roles" := py_get_default p "roles" (VList [VStr "user"])]> ∅)))
    end.

(** [OptionalDependencies.get_optional_user] of [dependencies.py]: an
    [HTTPException] of [get_current_user] becomes [None]; any other
    exception passes through. *)
Definition get_optional_user (credentials : option Token) (now : Z)
    : outcome (option (gmap string value)) :=
  match credentials with
  | None => Returned None
  | Some token =>
      match get_current_user token now with
      | Returned user => Returned (Some user)
      | Raised (HTTPException _ _) => Returned None
      | Raised e => Raised e
      end
  end.
End Security.

(** [any(role in user_roles for role in required_roles)]: the tests are
    made in order and stop at the first that holds. *)
Fixpoint any_role_in (required_roles : list string) (user_roles : value) : outcome bool :=
  match required_roles with
  | [] => Returned false
  | role :: rest =>
      b ← str_in role user_roles;
      if b : bool then Returned true else any_role_in rest user_roles
  end.

(** The [role_checker] [AuthDependencies.require_roles] returns. *)
Definition require_roles (required_roles : list string) (current_user : gmap string value)
    : outcome (gmap string value) :=
  let user_roles := py_get_default current_user "roles" (VList []) in
  b ← any_role_in required_roles user_roles;
  if b : bool then Returned current_user else Raised forbidden.

(** [AuthDependencies.require_admin]. *)
Definition require_admin (current_user : gmap string value) : outcome (gmap string value) :=
  b ← str_in "admin" (py_get_default current_user "roles" (VList []));
  if b : bool then Returned current_user
  else Raised (HTTPException 403 "Admin access required").

(** ** Rate limiting ([RateLimiter] of [security.py]) *)

(** [self.request_counts]: per key, the times of the requests counted. *)
Abbreviation RateLimiter := (gmap string (list Z)).

(** [timedelta.seconds]: the seconds of the duration within its day, the
    days and the microseconds left out. *)
Definition timedelta_seconds (d : Z) : Z := ((d `mod` 86400000000) `div` 1000000)%Z.

(** The key [f"{identifier}:{window}"]. *)
Definition rate_key (identifier : string) (window : Z) : string :=
  identifier +:+ ":" +:+ py_str window.

(** The requests kept by the list comprehension. *)
Definition in_window (now window : Z) (timestamps : list Z) : list Z :=
  filter (fun timestamp => (timedelta_seconds (now - timestamp) < window)%Z) timestamps.

(** [RateLimiter.is_rate_limited]. *)
Definition is_rate_limited (identifier : string) (limit window : Z) (now : Z)
    (self : RateLimiter) : RateLimiter * bool :=
  let key := rate_key identifier window in
  let self := if bool_decide (is_Some (self !! key)) then self else <[key := []]> self in
  let kept := in_window now window (default [] (self !! key)) in
  let self := <[key := kept]> self in
  if bool_decide (limit ≤ Z.of_nat (length kept))%Z then (self, true)
  else (<[key := (kept ++ [now])%list]> self, false).

(** [RateLimiter.get_remaining_requests]. *)
Definition get_remaining_requests (identifier : string) (limit window : Z) (now : Z)
    (self : RateLimiter) : RateLimiter * Z :=
  let key := rate_key identifier window in
  match self !! key with
  | None => (self, limit)
  | Some timestamps =>
      let kept := in_window now window timestamps in
      (<[key := kept]> self, Z.max 0 (limit - Z.of_nat (length kept)))
  end.

(** [Dependencies.rate_limit] of [dependencies.py], on the host of the
    request's client; the limiter reads the clock in each of its two
    calls. *)
Definition rate_limit (client_id : string) (limit window : Z) (now now' : Z)
    : M RateLimiter bool :=
  fun self =>
    let (self, limited) := is_rate_limited client_id limit window now self in
    if limited then
      let (self, remaining) := get_remaining_requests client_id limit window now' self in
      (self, Raised (HTTPException 429
                       ("Rate limit exceeded. Try again in " +:+ py_str window +:+ " seconds.")))
    else (self, Returned true).

(** [n] requests of one client, one after the other, all at the time
    [now]: the limiter they leave and the answers they got. *)
Fixpoint requests (n : nat) (identifier : string) (limit window : Z) (now : Z)
    (self : RateLimiter) : RateLimiter * list bool :=
  match n with
  | O => (self, [])
  | S n' =>
      let (self, limited) := is_rate_limited identifier limit window now self in
      let (self, answers) := requests n' identifier limit window now self in
      (self, limited :: answers)
  end.

(** ** Input sanitization ([SecurityUtils.sanitize_input])

    A [str] is here the list of its code points. *)

Fixpoint starts_with (old s : list N) : bool :=
  match old, s with
  | [], _ => true
  | _ :: _, [] => false
  | a :: old', c :: s' => bool_decide (a = c) && starts_with old' s'
  end.

(** [s.replace(old, "")] for a non-empty [old]: the occurrences of [old]
    are removed from left to right, without overlap; [skip] counts the
    code points of the occurrence being removed that are still ahead. *)
Fixpoint remove_from (old : list N) (skip : nat) (s : list N) : list N :=
  match s with
  | [] => []
  | c :: s' =>
      match skip with
      | S k => remove_from old k s'
      | O =>
          if starts_with old s then remove_from old (length old - 1) s'
          else c :: remove_from old 0 s'
      end
  end.

Definition remove_all (old s : list N) : list N := remove_from old 0 s.

(** The code points [str.isspace] holds for, which [strip] removes. *)
Definition is_space (c : N) : bool :=
  ((9 <=? c) && (c <=? 13) || (28 <=? c) && (c <=? 32) || (c =? 133) || (c =? 160)
   || (c =? 5760) || (8192 <=? c) && (c <=? 8202) || (c =? 8232) || (c =? 8233)
   || (c =? 8239) || (c =? 8287) || (c =? 12288))%N.

Fixpoint lstrip (s : list N) : list N :=
  match s with
  | [] => []
  | c :: s' => if is_space c then lstrip s' else s
  end.

Definition strip (s : list N) : list N := reverse (lstrip (reverse (lstrip s))).

(** The list [dangerous_chars]: the characters less-than, greater-than,
    apostrophe, quotation mark, ampersand and semicolon, then the pairs
    hyphen hyphen, slash asterisk and asterisk slash. *)
Definition dangerous_chars : list (list N) :=
  [[60]; [62]; [39]; [34]; [38]; [59]; [45; 45]; [47; 42]; [42; 47]]%N.

(** [SecurityUtils.sanitize_input]. *)
Definition sanitize_input (input_string : list N) : list N :=
  strip (foldl (fun sanitized char => remove_all char sanitized) input_string dangerous_chars).

(** ** Request validation ([ValidationDependencies] of [dependencies.py]) *)

(** [ValidationDependencies.validate_pagination]. *)
Definition validate_pagination (page size max_size : Z) : outcome (gmap string value) :=
  if bool_decide (page < 1)%Z then
    Raised (HTTPException 400 "Page number must be greater than 0")
  else if bool_decide (size < 1)%Z || bool_decide (size > max_size)%Z then
    Raised (HTTPException 400 ("Page size must be between 1 and " +:+ py_str max_size))
  else Returned (<["page" := VInt page]> (<["size" := VInt size]> ∅)).

(** [str.lower] on the letters A to Z.  The other code points whose
    lower-case form [str.lower] changes do not turn into ASCII letters of
    [asc] or [desc], so the test of [validate_sorting] and, where it
    passes, the order returned are those of [str.lower]. *)
Definition lower_ascii (c : ascii) : ascii :=
  let n := N_of_ascii c in
  if (65 <=? n)%N && (n <=? 90)%N then ascii_of_N (n + 32) else c.

Fixpoint lower (s : string) : string :=
  match s with
  | EmptyString => EmptyString
  | String c s' => String (lower_ascii c) (lower s')
  end.

Definition opt_str (s : option string) : value :=
  match s with
  | Some s => VStr s
  | None => VNone
  end.

(** [ValidationDependencies.validate_sorting]; [sort_by] and
    [allowed_fields] may be [None]. *)
Definition validate_sorting (sort_by : option string) (sort_order : string)
    (allowed_fields : option (list string)) : outcome (gmap string value) :=
  let allowed := default [] allowed_fields in
  if truthy (opt_str sort_by) && negb (bool_decide (allowed = []))
     && negb (bool_decide (default "" sort_by ∈ allowed)) then
    Raised (HTTPException 400
              ("Invalid sort field. Allowed: " +:+ String.concat ", " allowed))
  else if negb (bool_decide (lower sort_order ∈ ["asc"; "desc"])) then
    Raised (HTTPException 400 "Sort order must be 'asc' or 'desc'")
  else Returned (<["sort_by" := opt_str sort_by]>
                (<["sort_order" := VStr (lower sort_order)]> ∅)).

(** The dictionary [ttl_map] of [get_cache_ttl]. *)
Definition ttl_map : gmap string Z :=
  <["default" := 300%Z]>
  (<["user_data" := 600%Z]>
  (<["search_results" := 1800%Z]>
  (<["reports" := 3600%Z]>
  (<["admin" := 7200%Z]> ∅)))).

(** [CacheDependencies.get_cache_ttl]. *)
Definition get_cache_ttl (cache_type user_role : string) : Z :=
  let base_ttl := default (ttl_map !!! "default") (ttl_map !! cache_type) in
  if bool_decide (user_role = "admin") then default base_ttl (ttl_map !! "admin")
  else base_ttl.

(** ** Listing research jobs ([research_jobs.py]) *)

(** [d.name] on a dictionary [d], for a name that is no attribute of
    [dict] ([page], [limit], [sort_by] and [sort_order] are none): an
    [AttributeError]. *)
Definition dict_getattr (d : gmap string value) (name : string) : outcome value :=
  Raised (Exception ("'dict' object has no attribute '" +:+ name +:+ "'")).

(** [list_research_jobs].  [list_jobs] is the method of the research
    service (not under [src/]) and [current_user_id] the outcome of
    evaluating [current_user.id]. *)
Definition list_research_jobs
    (list_jobs : value → value → value → value → value → value → value → outcome value)
    (page limit : Z) (status search : value) (sort_by sort_order : string)
    (current_user_id : outcome value) : outcome value :=
  match
    pagination ← validate_pagination page limit 100;
    sorting ← validate_sorting (Some sort_by) sort_order None;
    user_id ← current_user_id;
    page ← dict_getattr pagination "page";
    limit ← dict_getattr pagination "limit";
    sort_by ← dict_getattr sorting "sort_by";
    sort_order ← dict_getattr sorting "sort_order";
    list_jobs user_id page limit status search sort_by sort_order
  with
  | Returned result => Returned result
  | Raised e => Raised (HTTPException 500 "Failed to list research jobs")
  end.

(** ** Vocabulary for the statements on tokens *)

(** The contract of the library the statements rely on: whenever it decodes
    a token it made, the claims other than [exp] (which it re-encodes) are
    those that were encoded. *)
Definition jose_faithful `{JOSE} : Prop :=
  ∀ claims key alg algorithms now p,
    jwt_decode (jwt_encode claims key alg) key algorithms now = Some p →
    ∀ k, k ≠ "exp" → p !! k = claims !! k.

(** The user [get_current_user] returns for the claims [p]. *)
Definition user_of (id : Z) (p : gmap string value) : gmap string value :=
  <["id" := VInt id]>
  (<["email" := py_get p "email"]>
  (<["roles" := py_get_default p "roles" (VList [VStr "user"])]> ∅)).

(** ** Sample data for the tokens *)

(** A library double: a token is the claims with the key and the algorithm
    they were signed with; decoding checks both and the expiry. *)
Definition plain_jose : JOSE :=
  {| Token := gmap string value * string * string;
     jwt_encode := fun claims key alg => (claims, key, alg);
     jwt_decode := fun token key algorithms now =>
       let '(claims, k, alg) := token in
       if bool_decide (k = key) && bool_decide (alg ∈ algorithms)
          && match claims !! "exp" with
             | Some (VInt exp) => bool_decide (now ≤ exp)%Z
             | _ => true
             end
       then Some claims else None |}.

Definition sample_manager : SecurityManager :=
  {| secret_key := "secret"; algorithm := "HS256";
     access_token_expire_minutes := 30; refresh_token_expire_days := 7 |}.


(** * Properties *)

(** ** Serialization *)

Lemma bind_Returned {A B} (a : A) (k : A → outcome B) : (Returned a ≫= k) = k a.
Proof. reflexivity. Qed.

Lemma hex_value_digit (d : N) : (d < 16)%N → hex_value (hex_digit d) = Some d.
Proof.
  intros Hd.
  assert (Hcases : In d (map N.of_nat (seq 0 16))).
  { apply in_map_iff. exists (N.to_nat d). split; [lia|]. apply in_seq. lia. }
  vm_compute in Hcases.
  repeat (destruct Hcases as [<-|Hcases]; [reflexivity|]). destruct Hcases.
Qed.

Lemma hex_digit_not_dash (d : N) : hex_digit d ≠ dash.
Proof.
  unfold hex_digit.
  repeat (match goal with
          | |- context [match ?x with _ => _ end] => destruct x
          end; try discriminate).
Qed.

Lemma hex_digits_length k n : length (hex_digits k n) = k.
Proof.
  revert n. induction k as [|k IH]; intros n; simpl; [done|].
  rewrite length_app, IH. simpl. lia.
Qed.

Lemma hex_digits_no_dash k n : Forall (fun c => c ≠ dash) (hex_digits k n).
Proof.
  revert n. induction k as [|k IH]; intros n; simpl; [constructor|].
  apply Forall_app. split; [apply IH|]. repeat constructor. apply hex_digit_not_dash.
Qed.

Lemma hex_to_N_digits k n : hex_to_N (hex_digits k n) = Some (n mod 16 ^ N.of_nat k)%N.
Proof.
  unfold hex_to_N. revert n. induction k as [|k IH]; intros n.
  - simpl. by rewrite N.mod_1_r.
  - simpl hex_digits. rewrite foldl_app, IH. simpl.
    rewrite hex_value_digit by (apply N.mod_lt; lia). simpl. f_equal.
    rewrite Nat2N.inj_succ, N.pow_succ_r'.
    rewrite (N.Div0.mod_mul_r n 16). lia.
Qed.

Lemma filter_no_dash (l : list ascii) :
  Forall (fun c => c ≠ dash) l → filter (fun c => c ≠ dash) l = l.
Proof.
  induction 1 as [|c l Hc _ IH]; [done|].
  rewrite filter_cons_True by done. by rewrite IH.
Qed.

Lemma filter_dash_cons (l : list ascii) :
  filter (fun c => c ≠ dash) (dash :: l) = filter (fun c => c ≠ dash) l.
Proof. by rewrite filter_cons_False by (intros Hne; by apply Hne). Qed.

Lemma uuid_groups_join (h : list ascii) :
  (take 8 h ++ take 4 (drop 8 h) ++ take 4 (drop 12 h)
     ++ take 4 (drop 16 h) ++ drop 20 h)%list = h.
Proof.
  rewrite <- (take_drop 8 h) at 6. f_equal.
  rewrite <- (take_drop 4 (drop 8 h)) at 2. f_equal.
  rewrite drop_drop. simpl.
  rewrite <- (take_drop 4 (drop 12 h)) at 2. f_equal.
  rewrite drop_drop. simpl.
  rewrite <- (take_drop 4 (drop 16 h)) at 2. f_equal.
  by rewrite drop_drop.
Qed.

Lemma uuid_groups_filter (h : list ascii) :
  Forall (fun c => c ≠ dash) h →
  filter (fun c => c ≠ dash)
    (take 8 h ++ dash :: take 4 (drop 8 h) ++ dash :: take 4 (drop 12 h)
       ++ dash :: take 4 (drop 16 h) ++ dash :: drop 20 h)%list = h.
Proof.
  intros Hh.
  assert (Hdrop : ∀ n, Forall (fun c => c ≠ dash) (drop n h))
    by (intros; by apply Forall_drop).
  assert (Htake : ∀ m n, Forall (fun c => c ≠ dash) (take m (drop n h)))
    by (intros; by apply Forall_take).
  repeat (rewrite filter_app || rewrite filter_dash_cons).
  rewrite !filter_no_dash by (auto using Forall_take).
  apply uuid_groups_join.
Qed.

Lemma hex_digit_hex_chars (d : N) : hex_digit d ∈ hex_chars.
Proof.
  unfold hex_digit.
  repeat (match goal with
          | |- context [match ?x with _ => _ end] => destruct x
          end; try (apply (bool_decide_unpack _); by vm_compute)).
Qed.

Lemma hex_digits_hex_chars k n : Forall (fun c => c ∈ hex_chars) (hex_digits k n).
Proof.
  revert n. induction k as [|k IH]; intros n; simpl; [constructor|].
  apply Forall_app. split; [apply IH|]. apply Forall_singleton, hex_digit_hex_chars.
Qed.

(** What the round trip needs of one such character. *)
Lemma hex_chars_plain (c : ascii) :
  c ∈ hex_chars →
  c ≠ "u"%char ∧ (c ∉ list_ascii_of_string "{}") ∧ int_space c = false
  ∧ c ≠ "+"%char ∧ c ≠ "-"%char ∧ c ≠ underscore ∧ (c ∉ ["x"%char; "X"%char])
  ∧ is_Some (hex_value c).
Proof.
  intros Hc. unfold hex_chars in Hc. cbn in Hc.
  repeat (apply elem_of_cons in Hc as [->|Hc];
          [repeat split; first [discriminate | by eexists
             | intros Hin; repeat (apply elem_of_cons in Hin as [Hin|Hin]; [discriminate Hin|]);
               by apply elem_of_nil in Hin]|]).
  by apply elem_of_nil in Hc.
Qed.

Lemma text_remove_from_absent (c0 : ascii) (old s : list ascii) :
  c0 ∉ s → text_remove_from (c0 :: old) 0 s = s.
Proof.
  induction s as [|c s IH]; [done|]. intros Hc.
  cbn [text_remove_from text_starts_with].
  rewrite (bool_decide_eq_false_2 (c0 = c)) by (intros ->; apply Hc; by left).
  cbn [andb]. rewrite IH; [done|]. intros Hin. apply Hc. by right.
Qed.

Lemma text_lstrip_head (chars s : list ascii) :
  (∀ c, head s = Some c → c ∉ chars) → text_lstrip chars s = s.
Proof.
  destruct s as [|c s]; [done|]. intros Hc. cbn [text_lstrip].
  by rewrite bool_decide_eq_false_2 by (by apply Hc).
Qed.

Lemma text_strip_ends (chars : string) (s : list ascii) :
  Forall (fun c => c ∉ list_ascii_of_string chars) s → text_strip chars s = s.
Proof.
  intros Hs. unfold text_strip. cbv zeta.
  assert (∀ l c, Forall (fun c => c ∉ list_ascii_of_string chars) l →
                 head l = Some c → c ∉ list_ascii_of_string chars) as Hhead.
  { intros [|x l] c Hl [= <-]. by apply Forall_cons in Hl as [? _]. }
  rewrite (text_lstrip_head _ s) by (intros c; by apply Hhead).
  rewrite text_lstrip_head; [apply reverse_involutive|].
  intros c. apply Hhead. by apply Forall_reverse.
Qed.

Lemma hex_fold_None (l : list ascii) :
  foldl (fun acc c => a ← acc; v ← hex_value c; Some (a * 16 + v)%N) None l = None.
Proof. induction l as [|c l IH]; [done|]. exact IH. Qed.

(** On digits without underscores the loop of [int] reads what [hex_to_N]
    reads. *)
Lemma int_digits_hex (l : list ascii) (acc n : N) :
  foldl (fun acc c => a ← acc; v ← hex_value c; Some (a * 16 + v)%N) (Some acc) l = Some n →
  int_digits false acc l = Some (n, []).
Proof.
  revert acc. induction l as [|c l IH]; intros acc; cbn [foldl int_digits].
  - by intros [= ->].
  - destruct (hex_value c) as [d|] eqn:Hd; cbn.
    + rewrite bool_decide_eq_false_2; [apply IH|].
      intros ->. discriminate Hd.
    + by rewrite hex_fold_None.
Qed.

Lemma int16_hex (l : list ascii) (n : N) :
  l ≠ [] → Forall (fun c => c ∈ hex_chars) l → hex_to_N l = Some n →
  int16 l = Some (Z.of_N n).
Proof.
  intros Hne Hl Hn. destruct l as [|c0 l]; [done|].
  apply Forall_cons in Hl as [Hc0 Hl].
  destruct (hex_chars_plain c0 Hc0) as (_ & _ & Hsp & Hplus & Hminus & Hus & _ & _).
  unfold int16. cbn [skip_space]. rewrite Hsp. cbv zeta. cbn [head tail].
  rewrite (bool_decide_eq_false_2 (Some c0 = Some "-"%char)) by (by intros [= ->]).
  rewrite (bool_decide_eq_false_2 (Some c0 = Some "+"%char)) by (by intros [= ->]).
  cbn [orb].
  assert (match l with
          | [] => c0 :: l
          | x :: s' =>
              if bool_decide (c0 = "0"%char) && bool_decide (x ∈ ["x"%char; "X"%char])
              then if bool_decide (head s' = Some underscore) then tail s' else s'
              else c0 :: l
          end = c0 :: l) as ->.
  { destruct l as [|c1 l]; [done|]. apply Forall_cons in Hl as [Hc1 _].
    destruct (hex_chars_plain c1 Hc1) as (_ & _ & _ & _ & _ & _ & Hx & _).
    rewrite (bool_decide_eq_false_2 (c1 ∈ _)) by done. by rewrite andb_false_r. }
  cbn [head]. rewrite (bool_decide_eq_false_2 (Some c0 = Some underscore)) by (by intros [= ->]).
  rewrite (int_digits_hex _ _ _ Hn). cbn [length skip_space].
  rewrite bool_decide_eq_false_2 by done. by rewrite bool_decide_eq_true_2.
Qed.

Lemma uuid_str_chars (h : list ascii) :
  Forall (fun c => c ∈ hex_chars) h →
  Forall (fun c => c ≠ "u"%char ∧ c ∉ list_ascii_of_string "{}")
    (take 8 h ++ dash :: take 4 (drop 8 h) ++ dash :: take 4 (drop 12 h)
       ++ dash :: take 4 (drop 16 h) ++ dash :: drop 20 h)%list.
Proof.
  intros Hh.
  assert (Forall (fun c => c ≠ "u"%char ∧ c ∉ list_ascii_of_string "{}") h) as Hp.
  { eapply Forall_impl; [exact Hh|]. intros c Hc.
    destruct (hex_chars_plain c Hc) as (? & ? & _). by split. }
  assert (dash ≠ "u"%char ∧ dash ∉ list_ascii_of_string "{}") as Hdash.
  { split; [discriminate|]. intros Hin.
    repeat (apply elem_of_cons in Hin as [Hin|Hin]; [discriminate Hin|]).
    by apply elem_of_nil in Hin. }
  repeat (first [apply Forall_app; split | apply Forall_cons; split; [exact Hdash|]]);
    auto using Forall_take, Forall_drop.
Qed.

(** [UUID(str(u))] is [u]. *)
Lemma uuid_parse_str (u : UUID) : valid_uuid u → uuid_parse (uuid_str u) = Returned u.
Proof.
  intros Hu. unfold uuid_parse, uuid_str. cbv zeta.
  rewrite list_ascii_of_string_of_list_ascii.
  pose proof (uuid_str_chars _ (hex_digits_hex_chars 32 u)) as Hchars.
  unfold text_remove.
  change (list_ascii_of_string "urn:") with ("u"%char :: list_ascii_of_string "rn:").
  change (list_ascii_of_string "uuid:") with ("u"%char :: list_ascii_of_string "uid:").
  match type of Hchars with Forall _ ?l => set (g := l) in * end.
  assert ("u"%char ∉ g) as Hnu.
  { intros Hin. eapply Forall_forall in Hchars as [Hu' _]; [|exact Hin]. by apply Hu'. }
  rewrite 2!(text_remove_from_absent _ _ g Hnu).
  rewrite text_strip_ends by (eapply Forall_impl; [exact Hchars|]; by intros c [_ ?]).
  unfold g. rewrite uuid_groups_filter by apply hex_digits_no_dash.
  rewrite hex_digits_length, bool_decide_eq_true_2 by done.
  rewrite (int16_hex _ (u mod 16 ^ N.of_nat 32)%N);
    [|by intros Hnil%(f_equal length); rewrite hex_digits_length in Hnil
     |apply hex_digits_hex_chars|apply hex_to_N_digits].
  rewrite N.mod_small by exact Hu.
  rewrite bool_decide_eq_true_2; [by rewrite N2Z.id|].
  unfold valid_uuid in Hu. split; [lia|].
  change (2 ^ 128)%Z with (Z.of_N (2 ^ 128)). lia.
Qed.

(** Strings [UUID] accepts besides the output of [str], and strings it
    rejects. *)
Example uuid_parse_forms :
  uuid_parse "00000000-0000-0000-0000-000000000007" = Returned 7%N
  ∧ uuid_parse "{00000000-0000-0000-0000-000000000007}" = Returned 7%N
  ∧ uuid_parse "urn:uuid:00000000-0000-0000-0000-000000000007" = Returned 7%N
  ∧ uuid_parse "0x000000000000000000000000000007" = Returned 7%N
  ∧ uuid_parse " 0000000000000000000000000000007" = Returned 7%N
  ∧ uuid_parse "0000_0000_0000_0000_0000_0000_07" = Returned 7%N
  ∧ uuid_parse "0000000000000000000000000000007_"
    = Raised (ValueError "invalid literal for int() with base 16")
  ∧ uuid_parse "0000000000000000000000000000000g"
    = Raised (ValueError "invalid literal for int() with base 16")
  ∧ uuid_parse "7" = Raised (ValueError "badly formed hexadecimal UUID string").
Proof. repeat split; vm_compute; reflexivity. Qed.

Lemma omap_list_inverse {A B} (f : A → outcome B) (g : B → A) (l : list B) :
  Forall (fun b => f (g b) = Returned b) l → omap_list f (g <$> l) = Returned l.
Proof.
  induction 1 as [|b l Hb _ IH]; [done|].
  rewrite fmap_cons. simpl. rewrite Hb. simpl. rewrite IH. done.
Qed.

Lemma as_str_list_VStr (l : list string) : as_str_list (VList (VStr <$> l)) = Returned l.
Proof. unfold as_str_list. simpl. apply omap_list_inverse. by apply Forall_forall. Qed.

Lemma or_empty_id (d : gmap string value) : or_empty d = d.
Proof. unfold or_empty. simpl. case_bool_decide; simpl; congruence. Qed.

Lemma init_dict_arg_VDict `{MessageCodec} (d : gmap string value) :
  init_dict_arg (VDict d) = Returned d.
Proof. unfold init_dict_arg. simpl. case_bool_decide; simpl; congruence. Qed.

(** The field-by-field codec reads back what it wrote. *)
Lemma field_codec_inverse (m : BaseMessage) : field_parse_obj (field_msg_dict m) = Returned m.
Proof.
  unfold field_parse_obj, field_msg_dict, py_item, py_get_default.
  cbn [as_dict]. rewrite bind_Returned.
  repeat (rewrite lookup_insert_eq || rewrite lookup_insert_ne by done).
  by destruct m.
Qed.

(** The round trip, for a state whose job id is a UUID and whose messages
    the library's codec reads back. *)
Lemma from_dict_to_dict_inverse `{MessageCodec} (s : ResearchState) :
  valid_uuid (job_id s) →
  Forall (fun m => parse_obj (msg_dict m) = Returned m) (messages s) →
  from_dict (to_dict s) = Returned s.
Proof.
  intros Hu Hm. unfold from_dict, py_item, py_get_default, to_dict.
  repeat (rewrite lookup_insert_eq || rewrite lookup_insert_ne by done).
  unfold default, from_option, id.
  repeat (rewrite bind_Returned || (progress cbn [as_str as_list as_dict])
          || rewrite (uuid_parse_str _ Hu) || rewrite init_dict_arg_VDict
          || rewrite (omap_list_inverse _ _ _ Hm) || rewrite as_str_list_VStr).
  by destruct s.
Qed.

(** C10. For every [ResearchState] [s] whose job id is a UUID and whose
    messages the message codec reads back, [ResearchState.from_dict] applied
    to [s.to_dict()] returns a state equal to [s], hence equal in each of
    job_id, query, constraints, output_config, messages, sources, claims,
    citations, artifacts, current_node, errors and metadata. *)
Theorem from_dict_to_dict `{MessageCodec} (s : ResearchState) :
  valid_uuid (job_id s) →
  Forall (fun m => parse_obj (msg_dict m) = Returned m) (messages s) →
  from_dict (to_dict s) = Returned s.
Proof.
  intros Hu Hm. unfold from_dict, py_item, py_get_default, to_dict.
  repeat (rewrite lookup_insert_eq || rewrite lookup_insert_ne by done).
  unfold default, from_option, id.
  rewrite bind_Returned. cbn [as_str]. rewrite bind_Returned.
  rewrite (uuid_parse_str _ Hu).
  repeat (rewrite bind_Returned || (progress cbn [as_str as_list as_dict])
          || rewrite init_dict_arg_VDict).
  rewrite (omap_list_inverse _ _ _ Hm).
  repeat (rewrite bind_Returned || (progress cbn [as_str as_list as_dict])).
  rewrite as_str_list_VStr.
  repeat (rewrite bind_Returned || (progress cbn [as_str as_list as_dict])).
  destruct s as [jid q c oc msgs srcs cls cits arts cur errs meta]. reflexivity.
Qed.

Lemma from_dict_to_dict_sample :
  @from_dict field_codec (@to_dict field_codec sample_state) = Returned sample_state.
Proof.
  apply (@from_dict_to_dict field_codec sample_state).
  - reflexivity.
  - repeat constructor.
Defined.

(** ** The node functions *)

Ltac unfold_node :=
  unfold _query_understanding_node, _retrieval_hub_node, _evidence_synthesis_node,
    _drafting_node, _fact_checking_node, _visualization_node, _review_gate_node,
    _human_approval_node, _formatting_node;
  unfold try_except, node_except, call, get_state, modify_state,
    job_service_update_job_status, mbind, mret, M_bind, M_ret, bindM, retM;
  cbv beta iota zeta.

Lemma _query_understanding_node_eq self w :
  _query_understanding_node self w =
  match _create_research_plan self (query (state w)) (constraints (state w)) with
  | Returned plan =>
      ({| state :=
            set_messages
              (messages (state w) ++ [HumanMessage (query (state w))]
                 ++ [AIMessage ("Research plan created: " +:+ plan_summary plan)])
              (set_current_node "query_understanding"
                 (set_metadata (<["research_plan" := plan_dict plan]> (metadata (state w)))
                    (state w)));
          jobs := update_job_status (job_id (state w)) PLANNING (jobs w) |},
       Returned RetState)
  | Raised e => (failed_world "Query understanding" e (with_status PLANNING w), Returned RetState)
  end.
Proof.
  unfold_node. destruct (_create_research_plan _ _ _); [|reflexivity].
  cbn. by rewrite <- app_assoc.
Qed.

Lemma _retrieval_hub_node_eq self w :
  _retrieval_hub_node self w =
  match retrieve_sources self (query (state w)) (py_get (metadata (state w)) "research_plan")
          (constraints (state w)) with
  | Returned srcs =>
      ({| state := set_current_node "retrieval_hub" (set_sources srcs (state w));
          jobs := update_job_status (job_id (state w)) RETRIEVING (jobs w) |},
       Returned RetState)
  | Raised e => (failed_world "Retrieval" e (with_status RETRIEVING w), Returned RetState)
  end.
Proof. unfold_node. destruct (retrieve_sources _ _ _ _); reflexivity. Qed.

Lemma _evidence_synthesis_node_eq self w :
  _evidence_synthesis_node self w =
  match synthesize_evidence self (sources (state w)) (query (state w)) with
  | Returned cls =>
      ({| state := set_current_node "evidence_synthesis" (set_claims cls (state w));
          jobs := update_job_status (job_id (state w)) SYNTHESIZING (jobs w) |},
       Returned RetState)
  | Raised e =>
      (failed_world "Evidence synthesis" e (with_status SYNTHESIZING w), Returned RetState)
  end.
Proof. unfold_node. destruct (synthesize_evidence _ _ _); reflexivity. Qed.

Lemma _drafting_node_eq self w :
  _drafting_node self w =
  match create_draft self (claims (state w)) (sources (state w)) (output_config (state w)) with
  | Returned draft =>
      ({| state := set_current_node "drafting"
                     (set_metadata (<["draft" := draft]> (metadata (state w))) (state w));
          jobs := update_job_status (job_id (state w)) DRAFTING (jobs w) |},
       Returned RetState)
  | Raised e => (failed_world "Drafting" e (with_status DRAFTING w), Returned RetState)
  end.
Proof. unfold_node. destruct (create_draft _ _ _ _); reflexivity. Qed.

Lemma _fact_checking_node_eq self w :
  _fact_checking_node self w =
  match verify_claims self (claims (state w)) (sources (state w)) with
  | Returned vc =>
      ({| state := set_current_node "fact_checking"
                     (set_citations vc.2 (set_claims vc.1 (state w)));
          jobs := update_job_status (job_id (state w)) FACT_CHECKING (jobs w) |},
       Returned RetState)
  | Raised e => (failed_world "Fact checking" e (with_status FACT_CHECKING w), Returned RetState)
  end.
Proof. unfold_node. destruct (verify_claims _ _ _); reflexivity. Qed.

Lemma _visualization_node_eq self w :
  _visualization_node self w =
  match create_visualizations self (claims (state w)) (sources (state w)) with
  | Returned vis =>
      ({| state := set_current_node "visualization"
                     (set_artifacts (artifacts (state w) ++ vis) (state w));
          jobs := update_job_status (job_id (state w)) VISUALIZING (jobs w) |},
       Returned RetState)
  | Raised e => (failed_world "Visualization" e (with_status VISUALIZING w), Returned RetState)
  end.
Proof. unfold_node. destruct (create_visualizations _ _ _); reflexivity. Qed.

Lemma _review_gate_node_eq self w :
  _review_gate_node self w =
  match _quality_check self (state w) with
  | Returned s =>
      (with_status REVIEWING w,
       Returned (if Qle_bool (8 # 10) s then RetStr "approve"
                 else if Qle_bool (6 # 10) s then RetStr "request_changes"
                 else RetStr "human_review"))
  | Raised e => (failed_world "Review gate" e (with_status REVIEWING w), Returned RetState)
  end.
Proof.
  unfold_node. destruct (_quality_check _ _) as [s|e]; [|reflexivity].
  destruct (Qle_bool (8 # 10) s); [reflexivity|].
  destruct (Qle_bool (6 # 10) s); reflexivity.
Qed.

Lemma _human_approval_node_eq self w :
  _human_approval_node self w =
  match _wait_for_human_approval self (job_id (state w)) with
  | Returned approval =>
      (w, Returned (if bool_decide (approval = "approve") then RetStr "approve"
                    else RetStr "request_changes"))
  | Raised e => (failed_world "Human approval" e w, Returned RetState)
  end.
Proof.
  unfold_node. destruct (_wait_for_human_approval _ _) as [a|e]; [|reflexivity].
  destruct (bool_decide (a = "approve")); reflexivity.
Qed.

Lemma _formatting_node_eq self w :
  _formatting_node self w =
  match generate_report self (py_get (metadata (state w)) "draft") (claims (state w))
          (citations (state w)) (artifacts (state w)) (output_config (state w)) with
  | Returned report =>
      ({| state := set_current_node "formatting"
                     (set_artifacts (artifacts (state w) ++ [report]) (state w));
          jobs := update_job_status (job_id (state w)) COMPLETED
                    (update_job_status (job_id (state w)) FORMATTING (jobs w)) |},
       Returned RetState)
  | Raised e => (failed_world "Formatting" e (with_status FORMATTING w), Returned RetState)
  end.
Proof. unfold_node. destruct (generate_report _ _ _ _ _ _); reflexivity. Qed.

(** ** The graph *)

Lemma graph_nodes self :
  nodes (_create_workflow_graph self) =
  <["human_approval" := _human_approval_node self]>
  (<["formatting" := _formatting_node self]>
  (<["review_gate" := _review_gate_node self]>
  (<["visualization" := _visualization_node self]>
  (<["fact_checking" := _fact_checking_node self]>
  (<["drafting" := _drafting_node self]>
  (<["evidence_synthesis" := _evidence_synthesis_node self]>
  (<["retrieval_hub" := _retrieval_hub_node self]>
  (<["query_understanding" := _query_understanding_node self]> ∅)))))))).
Proof. reflexivity. Qed.

Lemma graph_edges self :
  edges (_create_workflow_graph self) =
  <["error" := END]>
  (<["formatting" := END]>
  (<["human_approval" := "drafting"]>
  (<["visualization" := "review_gate"]>
  (<["fact_checking" := "visualization"]>
  (<["drafting" := "fact_checking"]>
  (<["evidence_synthesis" := "drafting"]>
  (<["retrieval_hub" := "evidence_synthesis"]>
  (<["query_understanding" := "retrieval_hub"]> ∅)))))))).
Proof. reflexivity. Qed.

Lemma graph_branches self :
  branches (_create_workflow_graph self) =
  <["review_gate" := (_review_gate_condition, review_gate_ends)]> ∅.
Proof. reflexivity. Qed.

Lemma graph_entry self : entry_point (_create_workflow_graph self) = Some "query_understanding".
Proof. reflexivity. Qed.

Ltac graph_lookup :=
  rewrite ?graph_nodes, ?graph_edges, ?graph_branches;
  repeat (rewrite lookup_insert_eq || rewrite lookup_insert_ne by done
          || rewrite lookup_empty).

Lemma graph_node self n f :
  (n, f) ∈ node_functions self → nodes (_create_workflow_graph self) !! n = Some f.
Proof.
  intros Hin. repeat (apply elem_of_cons in Hin as [[= -> ->]|Hin]; [by graph_lookup|]).
  by apply elem_of_nil in Hin.
Qed.

Lemma graph_nodes_inv self n f :
  nodes (_create_workflow_graph self) !! n = Some f → (n, f) ∈ node_functions self.
Proof.
  rewrite graph_nodes. intros Hn.
  repeat (apply lookup_insert_Some in Hn as [[<- <-]|[_ Hn]];
          [unfold node_functions, pipeline; set_solver|]).
  by rewrite lookup_empty in Hn.
Qed.

Lemma next_node_edge self n m st :
  (n, m) ∈ [("query_understanding", "retrieval_hub"); ("retrieval_hub", "evidence_synthesis");
            ("evidence_synthesis", "drafting"); ("drafting", "fact_checking");
            ("fact_checking", "visualization"); ("visualization", "review_gate");
            ("human_approval", "drafting"); ("formatting", END)] →
  next_node (_create_workflow_graph self) n st = Goto m.
Proof.
  intros Hin. unfold next_node.
  repeat (apply elem_of_cons in Hin as [[= -> ->]|Hin]; [by graph_lookup|]).
  by apply elem_of_nil in Hin.
Qed.

Lemma next_node_review_gate self st :
  next_node (_create_workflow_graph self) "review_gate" st =
  match review_gate_ends !! current_node st with
  | Some m => Goto m
  | None => NoBranch (current_node st)
  end.
Proof. unfold next_node. graph_lookup. reflexivity. Qed.

(** ** Runs *)

Ltac node_eqs :=
  rewrite ?_query_understanding_node_eq, ?_retrieval_hub_node_eq,
    ?_evidence_synthesis_node_eq, ?_drafting_node_eq, ?_fact_checking_node_eq,
    ?_visualization_node_eq, ?_review_gate_node_eq, ?_human_approval_node_eq,
    ?_formatting_node_eq.

Ltac each_node Hin :=
  unfold node_functions, pipeline in Hin;
  repeat (apply elem_of_cons in Hin as [[= -> ->]|Hin]);
  [..|by apply elem_of_nil in Hin].

(** No node function raises: each catches what its executor raised. *)
Lemma node_returns self n f w :
  (n, f) ∈ node_functions self → ∃ r, f w = (exec f w, Returned r).
Proof.
  intros Hin. unfold exec. each_node Hin; node_eqs;
    match goal with |- context [match ?o with Returned _ => _ | Raised _ => _ end] =>
      destruct o end; eauto.
Qed.

(** No node function changes the job id of the state. *)
Lemma node_job_id self n f w :
  (n, f) ∈ node_functions self → job_id (state (exec f w)) = job_id (state w).
Proof.
  intros Hin. unfold exec. each_node Hin; node_eqs;
    match goal with |- context [match ?o with Returned _ => _ | Raised _ => _ end] =>
      destruct o end; reflexivity.
Qed.

Lemma run_from_unfold g fuel n w :
  run_from g (S fuel) n w =
  if decide (n = END) then {| completed := []; run_world := w; run_status := Finished |}
  else
    match nodes g !! n with
    | None => {| completed := []; run_world := w; run_status := Failed (KeyError n) |}
    | Some f =>
        match f w with
        | (w', Raised e) => {| completed := []; run_world := w'; run_status := Failed e |}
        | (w', Returned _) =>
            match next_node g n (state w') with
            | Goto m =>
                let r := run_from g fuel m w' in
                {| completed := (n, state w') :: completed r;
                   run_world := run_world r; run_status := run_status r |}
            | NoBranch key =>
                {| completed := [(n, state w')]; run_world := w';
                   run_status := Failed (KeyError key) |}
            | NoEdge =>
                {| completed := [(n, state w')]; run_world := w';
                   run_status := Failed (ValueError ("no edge from " +:+ n)) |}
            end
        end
    end.
Proof. reflexivity. Qed.

Lemma run_from_zero g n w :
  n ≠ END →
  run_from g 0 n w = {| completed := []; run_world := w; run_status := Interrupted n |}.
Proof. intros Hn. simpl. by rewrite decide_False. Qed.

(** One step of a run of the workflow graph along an edge. *)
Lemma run_from_edge self fuel n f m w :
  (n, f) ∈ node_functions self →
  (∀ st, next_node (_create_workflow_graph self) n st = Goto m) →
  run_from (_create_workflow_graph self) (S fuel) n w =
  let r := run_from (_create_workflow_graph self) fuel m (exec f w) in
  {| completed := (n, state (exec f w)) :: completed r;
     run_world := run_world r; run_status := run_status r |}.
Proof.
  intros Hin Hnext. rewrite run_from_unfold.
  assert (n ≠ END) as Hn.
  { intros ->. each_node Hin. }
  rewrite decide_False by done.
  pose proof (graph_node _ _ _ Hin) as Hg. unfold M in *. rewrite Hg.
  destruct (node_returns self n f w Hin) as [r ->].
  by rewrite Hnext.
Qed.

Lemma node_marks_no_branch k : k ∈ node_marks → review_gate_ends !! k = None.
Proof.
  intros Hin. unfold node_marks in Hin.
  repeat (apply elem_of_cons in Hin as [->|Hin]; [reflexivity|]).
  by apply elem_of_nil in Hin.
Qed.

(** Every node function leaves [current_node] as it found it or sets it to
    its own name or to [error]. *)
Lemma node_current_node self n f w :
  (n, f) ∈ node_functions self →
  current_node (state (exec f w)) = current_node (state w)
  ∨ current_node (state (exec f w)) = n ∧ n ≠ "review_gate" ∧ n ≠ "human_approval"
  ∨ current_node (state (exec f w)) = "error".
Proof.
  intros Hin. unfold exec. each_node Hin; node_eqs;
    match goal with |- context [match ?o with Returned _ => _ | Raised _ => _ end] =>
      destruct o end; cbn; auto.
Qed.

Lemma node_keeps_marks self n f w :
  (n, f) ∈ node_functions self →
  current_node (state w) ∈ node_marks → current_node (state (exec f w)) ∈ node_marks.
Proof.
  intros Hin Hw.
  destruct (node_current_node self n f w Hin) as [->|[[-> [Hr Hh]]| ->]]; [done| |].
  - unfold node_marks. each_node Hin; first [done | by repeat constructor].
  - unfold node_marks. by repeat constructor.
Qed.

Ltac split_outcomes :=
  repeat match goal with
         | |- context [match ?o with Returned _ => _ | Raised _ => _ end] => destruct o
         end.

(** After the visualization node and the review gate node, [current_node]
    is [visualization] or [error]. *)
Lemma current_node_at_gate self w :
  current_node (state (exec (_review_gate_node self) (exec (_visualization_node self) w)))
  ∈ ["visualization"; "error"].
Proof.
  unfold exec. rewrite _visualization_node_eq.
  destruct (create_visualizations _ _ _); rewrite _review_gate_node_eq;
    destruct (_quality_check _ _); cbn; by repeat constructor.
Qed.

Lemma gate_no_branch self w :
  review_gate_ends
    !! current_node (state (exec (_review_gate_node self) (exec (_visualization_node self) w)))
  = None.
Proof.
  pose proof (current_node_at_gate self w) as Hin.
  repeat (apply elem_of_cons in Hin as [->|Hin]; [reflexivity|]).
  by apply elem_of_nil in Hin.
Qed.

(** A run stops at the review gate when the branch map has no entry for
    [current_node]. *)
Lemma run_from_gate self fuel w :
  let w' := exec (_review_gate_node self) w in
  review_gate_ends !! current_node (state w') = None →
  run_from (_create_workflow_graph self) (S fuel) "review_gate" w =
  {| completed := [("review_gate", state w')]; run_world := w';
     run_status := Failed (KeyError (current_node (state w'))) |}.
Proof.
  intros w' Hnone. rewrite run_from_unfold, decide_False by done.
  assert (("review_gate", _review_gate_node self) ∈ node_functions self) as Hin
    by (unfold node_functions, pipeline; by repeat constructor).
  pose proof (graph_node _ _ _ Hin) as Hg. unfold M in *. rewrite Hg.
  destruct (node_returns self _ _ w Hin) as [r ->].
  rewrite next_node_review_gate. fold w'. by rewrite Hnone.
Qed.

Ltac pipeline_step :=
  erewrite run_from_edge;
  [ | unfold node_functions, pipeline; by repeat constructor
    | intros; apply next_node_edge; by repeat constructor ];
  cbv zeta.

(** The shape of every run from the entry point: the nodes of [pipeline] in
    order, as far as the fuel reaches, then a failed branch lookup. *)
Lemma run_shape self fuel w :
  run_from (_create_workflow_graph self) fuel "query_understanding" w =
  {| completed := trail (take fuel (pipeline self)) w;
     run_world := exec_all (take fuel (pipeline self)) w;
     run_status :=
       match pipeline self !! fuel with
       | Some nf => Interrupted nf.1
       | None => Failed (KeyError (current_node (state (exec_all (pipeline self) w))))
       end |}.
Proof.
  do 6 (destruct fuel as [|fuel]; [by rewrite ?run_from_zero|pipeline_step]).
  destruct fuel as [|fuel]; [by rewrite ?run_from_zero|].
  rewrite run_from_gate by apply gate_no_branch.
  cbn [completed run_world run_status].
  replace (take (S (S (S (S (S (S (S fuel))))))) (pipeline self)) with (pipeline self)
    by (by destruct fuel).
  reflexivity.
Qed.

(** ** The review gate, the human approval and failures *)

Lemma exec_names_keeps_marks self path w :
  current_node (state w) ∈ node_marks →
  current_node (state (exec_names (_create_workflow_graph self) path w)) ∈ node_marks.
Proof.
  revert w. induction path as [|n path IH]; intros w Hw; [done|].
  cbn [exec_names].
  destruct (nodes (_create_workflow_graph self) !! n) as [f|] eqn:Hn; [|by apply IH].
  apply IH. eapply node_keeps_marks; [|done]. by apply graph_nodes_inv.
Qed.

(** C9. For every [ResearchState] reached from the initial state of
    [start_workflow] by running node functions of the graph in any order
    (the normal pipeline included), [_review_gate_condition] returns
    [state.current_node], and that value is no key of the review gate's
    branch map, so the branch lookup of the conditional edge finds nothing.
    At the gate of the normal pipeline the value is [visualization] (or
    [error]).  The verdict [_review_gate_node] returns is a key of the map,
    but the node leaves [current_node] as it was, and the condition never
    equals the verdict. *)
Theorem review_gate_condition_never_selects_a_branch (self : ResearchWorkflow)
    (path : list string) (jid : UUID) (q : string) (c oc : option (gmap string value))
    (jobs : gmap N Job) :
  let g := _create_workflow_graph self in
  let w0 := {| state := ResearchState_init jid q c oc; jobs := jobs |} in
  let w := exec_names g path w0 in
  let gate := exec_all (pipeline self) w0 in
  _review_gate_condition (state w) = current_node (state w)
  ∧ review_gate_ends !! _review_gate_condition (state w) = None
  ∧ next_node g "review_gate" (state w) = NoBranch (current_node (state w))
  ∧ _review_gate_condition (state gate) ∈ ["visualization"; "error"]
  ∧ (∀ s, _quality_check self (state w) = Returned s →
       ∃ v, (_review_gate_node self w).2 = Returned (RetStr v)
            ∧ is_Some (review_gate_ends !! v)
            ∧ _review_gate_condition (state (exec (_review_gate_node self) w))
              = current_node (state w)
            ∧ _review_gate_condition (state (exec (_review_gate_node self) w)) ≠ v).
Proof.
  intros g w0 w gate.
  assert (current_node (state w) ∈ node_marks) as Hmark.
  { apply exec_names_keeps_marks. unfold node_marks. cbn. by repeat constructor. }
  assert (review_gate_ends !! current_node (state w) = None) as Hnone
    by by apply node_marks_no_branch.
  split; [reflexivity|]. split; [exact Hnone|]. split.
  { unfold g. rewrite next_node_review_gate. by rewrite Hnone. }
  split; [apply current_node_at_gate|].
  intros s Hs. unfold exec, _review_gate_condition.
  rewrite _review_gate_node_eq, Hs. cbn [fst snd with_status state].
  destruct (Qle_bool (8 # 10) s); [|destruct (Qle_bool (6 # 10) s)];
    eexists; (split; [reflexivity|]); (split; [by eexists|]); (split; [reflexivity|]);
    intros Heq; rewrite Heq in Hnone; discriminate Hnone.
Qed.


(** C1 (the code at the failing input).  With a quality check that returns
    0.9 the review gate node returns the verdict [approve], which the branch
    map sends to [formatting]; the conditional edge however consults
    [_review_gate_condition], which returns [visualization], a key the map
    does not have: the run fails there and does not proceed to
    formatting. *)
Theorem review_gate_verdict_is_not_routed :
  let self := double (9 # 10) in
  let g := _create_workflow_graph self in
  let w := exec_all (take 6 (pipeline self)) (sample_world CREATED) in
  (_review_gate_node self w).2 = Returned (RetStr "approve")
  ∧ review_gate_ends !! "approve" = Some "formatting"
  ∧ _review_gate_condition (state (exec (_review_gate_node self) w)) = "visualization"
  ∧ next_node g "review_gate" (state (exec (_review_gate_node self) w))
    = NoBranch "visualization"
  ∧ run_status (start_workflow self 20 7 "impact of X" None None (sample_jobs CREATED))
    = Failed (KeyError "visualization").
Proof. vm_compute. repeat split. Qed.

(** C8 (the code at the failing input).  With a quality check that always
    returns 0.9 the run completes the seven nodes up to the review gate and
    fails on the branch lookup: formatting is not run and the job is left in
    status [REVIEWING], not [COMPLETED]. *)
Theorem run_with_quality_09_stops_at_the_review_gate :
  let r := start_workflow (double (9 # 10)) 20 7 "impact of X" None None (sample_jobs CREATED) in
  stages r = ["query_understanding"; "retrieval_hub"; "evidence_synthesis"; "drafting";
              "fact_checking"; "visualization"; "review_gate"]
  ∧ run_status r = Failed (KeyError "visualization")
  ∧ job_status <$> jobs (run_world r) !! 7%N = Some REVIEWING.
Proof. vm_compute. repeat split. Qed.

(** X2.  Every run of the workflow whose executors return a value or raise
    an [Exception], and leave the state and the objects they are handed as
    they are, completes the seven nodes up to the review gate and fails the
    branch lookup there, whatever the values returned and the exceptions
    raised (seven node executions are enough for the run to end). *)
Theorem every_run_stops_at_the_review_gate (self : ResearchWorkflow) (fuel : nat)
    (jid : UUID) (q : string) (c oc : option (gmap string value)) (jobs : gmap N Job) :
  let r := start_workflow self (7 + fuel) jid q c oc jobs in
  stages r = ["query_understanding"; "retrieval_hub"; "evidence_synthesis"; "drafting";
              "fact_checking"; "visualization"; "review_gate"]
  ∧ (run_status r = Failed (KeyError "visualization")
     ∨ run_status r = Failed (KeyError "error"))
  ∧ start_workflow_result r = Raised (KeyError (current_node (state (run_world r)))).
Proof.
  intros r. unfold r, start_workflow, ainvoke. rewrite graph_entry, run_shape.
  unfold start_workflow_result, stages. cbn [completed run_status run_world].
  replace (take (7 + fuel) (pipeline self)) with (pipeline self) by (by destruct fuel).
  replace (pipeline self !! (7 + fuel)%nat) with (@None (string * M World NodeReturn))
    by (by destruct fuel).
  split; [reflexivity|]. split; [|reflexivity].
  match goal with |- context [current_node (state ?w)] =>
    pose proof (current_node_at_gate self
      (exec_all (take 5 (pipeline self))
         {| state := ResearchState_init jid q c oc; jobs := jobs |})) as Hin
  end.
  apply elem_of_cons in Hin as [Hin|Hin]; [left; by do 2 f_equal|].
  apply elem_of_cons in Hin as [Hin|Hin]; [right; by do 2 f_equal|].
  by apply elem_of_nil in Hin.
Qed.

(** C2 (the code at the failing input).  With a quality check that always
    returns 0.7 the review gate node, at the one visit the run makes,
    returns the verdict [request_changes], which the branch map sends to
    [drafting]; the conditional edge however consults
    [_review_gate_condition], which returns [visualization], a key the map
    does not have.  The run fails there: drafting has run once, nothing
    loops back to it, and the human review is not reached. *)
Theorem run_with_quality_07_never_loops_back :
  let self := double (7 # 10) in
  let g := _create_workflow_graph self in
  let w := run_world (start_workflow self 6 7 "impact of X" None None (sample_jobs CREATED)) in
  let r := start_workflow self 20 7 "impact of X" None None (sample_jobs CREATED) in
  _quality_check self (state w) = Returned (7 # 10)
  ∧ (_review_gate_node self w).2 = Returned (RetStr "request_changes")
  ∧ review_gate_ends !! "request_changes" = Some "drafting"
  ∧ _review_gate_condition (state (exec (_review_gate_node self) w)) = "visualization"
  ∧ next_node g "review_gate" (state (exec (_review_gate_node self) w))
    = NoBranch "visualization"
  ∧ stages r = ["query_understanding"; "retrieval_hub"; "evidence_synthesis"; "drafting";
                "fact_checking"; "visualization"; "review_gate"]
  ∧ run_status r = Failed (KeyError "visualization").
Proof. vm_compute. repeat split. Qed.

(** C3, counterexample.  The decision [approve] makes the human approval
    node return [approve], and the node after it is [drafting], not
    [formatting]. *)
Lemma approve_is_routed_to_drafting :
  let self := double (3 # 10) in
  let w := sample_world AWAITING_HUMAN in
  _wait_for_human_approval self (job_id (state w)) = Returned "approve"
  ∧ (_human_approval_node self w).2 = Returned (RetStr "approve")
  ∧ next_node (_create_workflow_graph self) "human_approval"
      (state (exec (_human_approval_node self) w)) = Goto "drafting".
Proof. vm_compute. repeat split. Qed.

(** C3, amended.  Whatever the decision, the node after [human_approval] is
    [drafting]: the graph has the one edge human_approval -> drafting.  The
    node returns [approve] for the decision [approve] and [request_changes]
    for any other, and leaves [WorkflowState.metadata] and the rest of the
    state as they were (a raise of the wait is recorded like any other
    failure). *)
Theorem human_approval_is_followed_by_drafting (self : ResearchWorkflow) (w : World) :
  next_node (_create_workflow_graph self) "human_approval"
    (state (exec (_human_approval_node self) w)) = Goto "drafting"
  ∧ metadata (state (exec (_human_approval_node self) w)) = metadata (state w)
  ∧ match _wait_for_human_approval self (job_id (state w)) with
    | Returned action =>
        _human_approval_node self w =
        (w, Returned (RetStr (if bool_decide (action = "approve") then "approve"
                              else "request_changes")))
    | Raised e =>
        _human_approval_node self w = (failed_world "Human approval" e w, Returned RetState)
    end.
Proof.
  split; [apply next_node_edge; by repeat constructor|].
  unfold exec. rewrite _human_approval_node_eq.
  destruct (_wait_for_human_approval self (job_id (state w))) as [a|e].
  - split; [reflexivity|]. by destruct (bool_decide (a = "approve")).
  - split; reflexivity.
Qed.

Lemma update_job_status_errors jid status (jobs : gmap N Job) k :
  job_errors <$> update_job_status jid status jobs !! k = job_errors <$> jobs !! k.
Proof.
  unfold update_job_status. rewrite lookup_alter.
  destruct (decide (jid = k)) as [->|]; [|done].
  by destruct (jobs !! k).
Qed.

Lemma update_job_status_lookup jid status (jobs : gmap N Job) k j :
  update_job_status jid status jobs !! k = Some j →
  ∃ j0, jobs !! k = Some j0 ∧ (job_status j = status ∨ j = j0).
Proof.
  unfold update_job_status. rewrite lookup_alter.
  destruct (decide (jid = k)) as [->|]; [|by eauto].
  destruct (jobs !! k) as [j0|]; [|done].
  intros [= <-]. eauto.
Qed.

(** C4, counterexample.  When the retrieval service raises, the error is
    appended to [WorkflowState.errors], but the job's status stays
    [RETRIEVING], its error list stays empty, and the run goes on through
    the later stages. *)
Lemma failed_retrieval_leaves_the_job_running :
  let self := double_failing_retrieval in
  let w := exec (_query_understanding_node self) (sample_world CREATED) in
  let w' := exec (_retrieval_hub_node self) w in
  executor_raises self w "retrieval_hub" (Exception "timeout")
  ∧ errors (state w') = ["Retrieval failed: timeout"]
  ∧ job_status <$> jobs w' !! 7%N = Some RETRIEVING
  ∧ job_errors <$> jobs w' !! 7%N = Some []
  ∧ stages (start_workflow self 20 7 "impact of X" None None (sample_jobs CREATED))
    = ["query_understanding"; "retrieval_hub"; "evidence_synthesis"; "drafting";
       "fact_checking"; "visualization"; "review_gate"].
Proof. split; [by constructor|]. vm_compute. repeat split. Qed.

(** C4, amended.  For every node of the graph whose executor raises [e],
    the node returns the state with the message ["<what> failed: <e>"]
    appended to [WorkflowState.errors] and [current_node] set to [error];
    the job table is left as the node's entry write of the running status
    made it: no job's error list changes, and no job becomes [FAILED]. *)
Theorem failed_stage_is_recorded_in_the_state (self : ResearchWorkflow) (n : string)
    (f : M World NodeReturn) (what : string) (entry : option JobStatus) (w : World)
    (e : exn) :
  nodes (_create_workflow_graph self) !! n = Some f →
  (n, (what, entry)) ∈ stage_table →
  executor_raises self w n e →
  f w = (failed_world what e (entered entry w), Returned RetState)
  ∧ errors (state (exec f w))
    = (errors (state w) ++ [what +:+ " failed: " +:+ str_exn e])%list
  ∧ current_node (state (exec f w)) = "error"
  ∧ (∀ jid, job_errors <$> jobs (exec f w) !! jid = job_errors <$> jobs w !! jid)
  ∧ (∀ jid j, jobs (exec f w) !! jid = Some j → job_status j = FAILED →
       ∃ j0, jobs w !! jid = Some j0 ∧ job_status j0 = FAILED).
Proof.
  intros Hf Htab Hraise.
  assert (f w = (failed_world what e (entered entry w), Returned RetState)) as Heq.
  { apply graph_nodes_inv in Hf. unfold node_functions, pipeline in Hf. cbn [app] in Hf.
    unfold stage_table in Htab.
    destruct Hraise as [e Hr|e Hr|e Hr|e Hr|e Hr|e Hr|e Hr|e Hr|e Hr];
      repeat (apply elem_of_cons in Hf as [Hf|Hf];
              [first [discriminate Hf | injection Hf as ->]|]);
      try (by apply elem_of_nil in Hf);
      repeat (apply elem_of_cons in Htab as [Htab|Htab];
              [first [discriminate Htab | injection Htab as -> ->]|]);
      try (by apply elem_of_nil in Htab);
      node_eqs; by rewrite Hr. }
  split; [exact Heq|]. unfold exec. rewrite Heq. cbn [fst].
  split; [destruct entry; reflexivity|]. split; [destruct entry; reflexivity|].
  split.
  - intros jid. destruct entry as [status|]; [|done]. apply update_job_status_errors.
  - intros jid j Hj Hfailed. destruct entry as [status|]; [|by eauto].
    cbn in Hj. apply update_job_status_lookup in Hj as (j0 & Hj0 & [Hst| ->]); [|by eauto].
    exfalso. rewrite Hfailed in Hst. subst status.
    unfold stage_table in Htab.
    repeat (apply elem_of_cons in Htab as [Htab|Htab]; [discriminate Htab|]).
    by apply elem_of_nil in Htab.
Qed.

Lemma failed_retrieval_is_recorded_in_the_state :
  let self := double_failing_retrieval in
  let w := exec (_query_understanding_node self) (sample_world CREATED) in
  let f := _retrieval_hub_node self in
  f w = (failed_world "Retrieval" (Exception "timeout") (entered (Some RETRIEVING) w),
         Returned RetState)
  ∧ errors (state (exec f w))
    = (errors (state w) ++ ["Retrieval" +:+ " failed: " +:+ str_exn (Exception "timeout")])%list
  ∧ current_node (state (exec f w)) = "error"
  ∧ (∀ jid, job_errors <$> jobs (exec f w) !! jid = job_errors <$> jobs w !! jid)
  ∧ (∀ jid j, jobs (exec f w) !! jid = Some j → job_status j = FAILED →
       ∃ j0, jobs w !! jid = Some j0 ∧ job_status j0 = FAILED).
Proof.
  intros self w f.
  apply (failed_stage_is_recorded_in_the_state self "retrieval_hub" f "Retrieval"
           (Some RETRIEVING) w (Exception "timeout")).
  - reflexivity.
  - unfold stage_table. by repeat constructor.
  - by constructor.
Defined.

(** ** The job endpoints *)

Ltac unfold_endpoint :=
  unfold cancel_job, submit_review, process_review, cancel_workflow, carry_instructions,
    db_update_job_status, get_backend, raise, mbind, mret, M_bind, M_ret, bindM, retM;
  cbv beta iota zeta.

Lemma get_job_by_id_Some jid user (jobs : gmap N Job) job :
  get_job_by_id jid user jobs = Some job ↔ jobs !! jid = Some job ∧ job_owner job = user.
Proof.
  unfold get_job_by_id. split.
  - destruct (jobs !! jid) as [j|]; cbn; [|discriminate].
    case_decide; [|discriminate]. by intros [= ->].
  - intros [-> <-]. cbn. by rewrite decide_True.
Qed.

Lemma update_job_status_insert jid status (jobs : gmap N Job) job :
  jobs !! jid = Some job →
  update_job_status jid status jobs = <[jid := set_job_status status job]> jobs.
Proof.
  intros Hj. unfold update_job_status. apply map_eq. intros k.
  rewrite lookup_alter, lookup_insert. case_decide; [|done]. by rewrite Hj.
Qed.

(** What [cancel_job] does for a job the job service finds for the
    caller. *)
Lemma cancel_job_eq (jid : UUID) (user : N) (b : Backend) (job : Job) :
  get_job_by_id jid user (db_jobs b) = Some job →
  cancel_job jid user b =
  if bool_decide (job_status job ∈ [COMPLETED; FAILED]) then
    (b, Raised (HTTPException 400 "Cannot cancel completed or failed job"))
  else if terminal (job_status job) then (b, Raised InvalidTransitionError)
  else
    ({| db_jobs := <[jid := set_job_status FAILED job]> (db_jobs b);
        workflow_states := workflow_states b |},
     Returned "Job cancelled successfully").
Proof.
  intros Hjob. unfold_endpoint. rewrite Hjob.
  apply get_job_by_id_Some in Hjob as [Hjob _].
  destruct (bool_decide (job_status job ∈ [COMPLETED; FAILED])); [reflexivity|].
  rewrite Hjob. destruct (terminal (job_status job)); [reflexivity|].
  cbn [db_jobs workflow_states]. do 2 f_equal.
  rewrite (update_job_status_insert jid CANCELLING _ job Hjob).
  rewrite (update_job_status_insert jid FAILED _ (set_job_status CANCELLING job))
    by apply lookup_insert_eq.
  by rewrite insert_insert_eq.
Qed.

(** C5, counterexample.  Cancelling a job that is drafting (not terminal)
    succeeds and leaves it in the status [FAILED], not [CANCELLED]. *)
Lemma cancel_marks_the_job_failed :
  let r := cancel_job 7 1 (sample_backend DRAFTING) in
  terminal DRAFTING = false
  ∧ r.2 = Returned "Job cancelled successfully"
  ∧ job_status <$> db_jobs r.1 !! 7%N = Some FAILED
  ∧ job_status <$> db_jobs r.1 !! 7%N ≠ Some CANCELLED.
Proof. vm_compute. repeat split. discriminate. Qed.

(** C5, amended.  Cancelling a job of the caller whose status is not
    terminal succeeds and sets the job's status to [FAILED] (not
    [CANCELLED]), the rest of the job, the other jobs and the workflow
    states unchanged; cancelling a job whose status is terminal is rejected
    with an error and changes nothing: with HTTP 400 by [cancel_job] itself
    when the status is [COMPLETED] or [FAILED], and, when it is
    [CANCELLED], with the error of the workflow service's cancellation. *)
Theorem cancel_job_marks_failed (jid : UUID) (user : N) (b : Backend) (job : Job) :
  get_job_by_id jid user (db_jobs b) = Some job →
  cancel_job jid user b =
  if terminal (job_status job) then
    (b, Raised (if bool_decide (job_status job = CANCELLED) then InvalidTransitionError
                else HTTPException 400 "Cannot cancel completed or failed job"))
  else
    ({| db_jobs := <[jid := set_job_status FAILED job]> (db_jobs b);
        workflow_states := workflow_states b |},
     Returned "Job cancelled successfully").
Proof.
  intros Hjob. rewrite (cancel_job_eq _ _ _ _ Hjob).
  destruct (job_status job); reflexivity.
Qed.

Lemma cancel_job_marks_failed_sample :
  cancel_job 7 1 (sample_backend DRAFTING) =
  ({| db_jobs := <[7%N := set_job_status FAILED (sample_job DRAFTING)]>
                   (db_jobs (sample_backend DRAFTING));
      workflow_states := workflow_states (sample_backend DRAFTING) |},
   Returned "Job cancelled successfully").
Proof.
  apply (cancel_job_marks_failed 7 1 (sample_backend DRAFTING) (sample_job DRAFTING)).
  reflexivity.
Defined.

(** The three terminal statuses at the sample job: each cancellation is
    rejected and the job table is as before. *)
Example cancel_job_of_a_terminal_job :
  cancel_job 7 1 (sample_backend COMPLETED)
  = (sample_backend COMPLETED,
     Raised (HTTPException 400 "Cannot cancel completed or failed job"))
  ∧ cancel_job 7 1 (sample_backend FAILED)
    = (sample_backend FAILED,
       Raised (HTTPException 400 "Cannot cancel completed or failed job"))
  ∧ cancel_job 7 1 (sample_backend CANCELLED)
    = (sample_backend CANCELLED, Raised InvalidTransitionError).
Proof. repeat split; vm_compute; reflexivity. Qed.

(** C6.  For a job of the caller, [submit_review] over the review
    processing modelled from the spec: when the job is not in
    [AWAITING_HUMAN], the submission fails with [ConflictError] and the
    backend (job records and workflow states) is unchanged; and when a
    decision has been accepted, any second submission for the job fails with
    [ConflictError] and leaves the backend as the first left it. *)
Theorem review_outside_the_gate_is_a_conflict (jid : UUID) (user : N) (b : Backend)
    (job : Job) (review_data : gmap string value) :
  get_job_by_id jid user (db_jobs b) = Some job →
  (job_status job ≠ AWAITING_HUMAN →
   submit_review jid review_data user b = (b, Raised ConflictError))
  ∧ (∀ b' msg review_data',
       submit_review jid review_data user b = (b', Returned msg) →
       submit_review jid review_data' user b' = (b', Raised ConflictError)).
Proof.
  intros Hjob. pose proof Hjob as Hget.
  apply get_job_by_id_Some in Hjob as [Hjob Hown].
  assert (Hconflict : ∀ b0 job0 data0,
    get_job_by_id jid user (db_jobs b0) = Some job0 →
    job_status job0 ≠ AWAITING_HUMAN →
    submit_review jid data0 user b0 = (b0, Raised ConflictError)).
  { intros b0 job0 data0 Hget0 Hst. unfold_endpoint. rewrite Hget0.
    apply get_job_by_id_Some in Hget0 as [-> _].
    by rewrite decide_False. }
  split; [by apply Hconflict|].
  intros b' msg data' Hsub.
  revert Hsub. unfold_endpoint. rewrite Hget, Hjob.
  destruct (decide (job_status job = AWAITING_HUMAN)) as [Hst|]; [|done].
  destruct (py_get review_data "action") as [| | |a| |]; try done.
  destruct (bool_decide (a = "approve"));
    [|destruct (bool_decide (a ∈ ["request_changes"; "reject"])); [|done]];
    cbn [db_jobs workflow_states]; intros [= <- _];
    rewrite (update_job_status_insert _ _ _ _ Hjob);
    (eapply Hconflict;
     [apply get_job_by_id_Some; cbn [db_jobs]; rewrite lookup_insert_eq; done|done]).
Qed.

Lemma review_outside_the_gate_is_a_conflict_sample :
  (job_status (sample_job AWAITING_HUMAN) ≠ AWAITING_HUMAN →
   submit_review 7 {[ "action" := VStr "approve" ]} 1 (sample_backend AWAITING_HUMAN)
   = (sample_backend AWAITING_HUMAN, Raised ConflictError))
  ∧ (∀ b' msg review_data',
       submit_review 7 {[ "action" := VStr "approve" ]} 1 (sample_backend AWAITING_HUMAN)
       = (b', Returned msg) →
       submit_review 7 review_data' 1 b' = (b', Raised ConflictError)).
Proof.
  apply (review_outside_the_gate_is_a_conflict 7 1 (sample_backend AWAITING_HUMAN)
           (sample_job AWAITING_HUMAN)).
  reflexivity.
Defined.

(** A decision accepted at the gate, then a second one. *)
Example second_review_is_a_conflict :
  let r := submit_review 7 {[ "action" := VStr "approve" ]} 1 (sample_backend AWAITING_HUMAN) in
  r.2 = Returned "Review submitted successfully"
  ∧ job_status <$> db_jobs r.1 !! 7%N = Some FORMATTING
  ∧ submit_review 7 {[ "action" := VStr "reject" ]} 1 r.1 = (r.1, Raised ConflictError)
  ∧ submit_review 7 {[ "action" := VStr "approve" ]} 1 (sample_backend DRAFTING)
    = (sample_backend DRAFTING, Raised ConflictError).
Proof. vm_compute. repeat split. Qed.

(** ** Checkpoints and starting again *)


Lemma pipeline_nodes self : Forall (fun nf => nf ∈ node_functions self) (pipeline self).
Proof. apply Forall_forall. intros nf Hin. unfold node_functions. apply elem_of_app. by left. Qed.

Section Checkpoints.
Context `{MessageCodec}.


End Checkpoints.



(** The second start of the sample job, with a quality check that always
    returns 0.9: the four checkpointed stages are among the seven it
    executes. *)
Example second_start_of_the_sample_job :
  let self := double (9 # 10) in
  let r1 := start_workflow self 4 7 "impact of X" None None (sample_jobs CREATED) in
  let r2 := start_workflow self 20 7 "impact of X" None None (jobs (run_world r1)) in
  stages r1 = ["query_understanding"; "retrieval_hub"; "evidence_synthesis"; "drafting"]
  ∧ stages r2 = ["query_understanding"; "retrieval_hub"; "evidence_synthesis"; "drafting";
                 "fact_checking"; "visualization"; "review_gate"].
Proof. vm_compute. repeat split. Qed.

(** ** The node functions and the runs

    The statements of this part range over every [ResearchWorkflow] of the
    model: executors that return a value or raise an [Exception], and leave
    the objects they are handed as they are. *)

Ltac split_node :=
  match goal with |- context [match ?o with Returned _ => _ | Raised _ => _ end] =>
    destruct o end.


Lemma node_keeps_request self n f w :
  (n, f) ∈ node_functions self →
  job_id (state (exec f w)) = job_id (state w)
  ∧ query (state (exec f w)) = query (state w)
  ∧ constraints (state (exec f w)) = constraints (state w)
  ∧ output_config (state (exec f w)) = output_config (state w).
Proof.
  intros Hin. unfold exec. each_node Hin; node_eqs; split_node; repeat split.
Qed.

Lemma exec_all_keeps_request self fs w :
  Forall (fun nf => nf ∈ node_functions self) fs →
  job_id (state (exec_all fs w)) = job_id (state w)
  ∧ query (state (exec_all fs w)) = query (state w)
  ∧ constraints (state (exec_all fs w)) = constraints (state w)
  ∧ output_config (state (exec_all fs w)) = output_config (state w).
Proof.
  intros Hfs. revert w. induction Hfs as [|[n f] fs Hin _ IH]; intros w; [done|].
  change (exec_all ((n, f) :: fs) w) with (exec_all fs (exec f w)).
  destruct (IH (exec f w)) as (-> & -> & -> & ->).
  by apply (node_keeps_request self n).
Qed.

(** X4.  The node functions themselves never assign [job_id], [query],
    [constraints] or [output_config]: in a run whose executors leave the
    objects they are handed as they are (the services are handed
    [state.constraints] and [state.output_config] themselves), whatever the
    executors return or raise and however far the run gets, the state it
    leaves carries the job id and the query given to [start_workflow], and
    the constraints and output configuration [ResearchState.__init__] made
    of the arguments. *)
Theorem run_keeps_the_request (self : ResearchWorkflow) (fuel : nat) (jid : UUID)
    (q : string) (c oc : option (gmap string value)) (jobs : gmap N Job) :
  let st := state (run_world (start_workflow self fuel jid q c oc jobs)) in
  job_id st = jid ∧ query st = q
  ∧ constraints st = opt_or_empty c ∧ output_config st = opt_or_empty oc.
Proof.
  cbv zeta. unfold start_workflow, ainvoke. rewrite graph_entry, run_shape.
  cbn [run_world].
  apply (exec_all_keeps_request self (take fuel (pipeline self))
           {| state := ResearchState_init jid q c oc; jobs := jobs |}).
  eapply Forall_impl; [apply Forall_take, pipeline_nodes|]. done.
Qed.

(** X5.  The node functions only ever append to [errors], [messages] and
    [artifacts]: each leaves the earlier entries in place and in order; it
    adds at most one error message, and whenever it adds one it has set
    [current_node] to [error]. *)
Theorem node_functions_only_append (self : ResearchWorkflow) (n : string) (w : World) :
  match nodes (_create_workflow_graph self) !! n with
  | Some f =>
      let st := state w in
      let st' := state (exec f w) in
      (∃ new, errors st' = (errors st ++ new)%list ∧ (length new ≤ 1)%nat
              ∧ (new ≠ [] → current_node st' = "error"))
      ∧ (∃ new, messages st' = (messages st ++ new)%list)
      ∧ (∃ new, artifacts st' = (artifacts st ++ new)%list)
  | None => True
  end.
Proof.
  destruct (nodes (_create_workflow_graph self) !! n) as [f|] eqn:Hn; [|done].
  apply graph_nodes_inv in Hn. cbv zeta. unfold exec.
  each_node Hn; node_eqs; split_node; cbn [fst state failed_world with_status
    errors messages artifacts current_node set_current_node set_errors set_messages
    set_artifacts set_metadata set_sources set_claims set_citations];
    (split; [first [ by exists []; rewrite app_nil_r; repeat split; [cbn; lia|]
                   | by eexists [_]; repeat split; cbn; lia ]|]);
    (split; [first [ by exists []; rewrite app_nil_r | by eexists ]|]);
    first [ by exists []; rewrite app_nil_r | by eexists ].
Qed.

(** X9.  The graph declares an edge from [error] to [END], yet it has no
    node [error] and nothing routes to it: from any node and state, the next
    node is never [error] and is always [END] or a node of the graph; the
    routing fails on a branch lookup only at the review gate (on the key
    [current_node]), and finds no edge only from names that are no node. *)
Theorem no_route_leads_to_error (self : ResearchWorkflow) (n : string) (st : ResearchState) :
  let g := _create_workflow_graph self in
  nodes g !! "error" = None
  ∧ edges g !! "error" = Some END
  ∧ match next_node g n st with
    | Goto m => (m ≠ "error") ∧ (m = END ∨ is_Some (nodes g !! m))
    | NoBranch k => n = "review_gate" ∧ k = current_node st
    | NoEdge => (n ∉ node_names) ∧ n ≠ "error"
    end.
Proof.
  cbv zeta. split; [by graph_lookup|]. split; [by graph_lookup|].
  unfold next_node. rewrite graph_branches.
  destruct (decide (n = "review_gate")) as [->|Hn].
  - rewrite lookup_insert_eq. unfold _review_gate_condition.
    destruct (review_gate_ends !! current_node st) as [m|] eqn:Hm; [|done].
    unfold review_gate_ends in Hm.
    repeat (apply lookup_insert_Some in Hm as [[_ <-]|[_ Hm]];
            [split; [done|right; graph_lookup; by eexists]|]).
    by rewrite lookup_empty in Hm.
  - rewrite lookup_insert_ne, lookup_empty by done.
    destruct (edges (_create_workflow_graph self) !! n) as [m|] eqn:Hm.
    + rewrite graph_edges in Hm.
      repeat (apply lookup_insert_Some in Hm as [[_ <-]|[_ Hm]];
              [split; [done|first [by left | right; graph_lookup; by eexists]]|]).
      by rewrite lookup_empty in Hm.
    + split.
      * intros Hin. unfold node_names in Hin.
        repeat (apply elem_of_cons in Hin as [->|Hin];
                [first [done | revert Hm; graph_lookup; discriminate]|]).
        by apply elem_of_nil in Hin.
      * intros ->. revert Hm. graph_lookup. discriminate.
Qed.



(** ** Defaults and errors of [from_dict] *)

Ltac from_dict_lookups :=
  unfold from_dict, py_item, py_get_default;
  repeat (rewrite lookup_insert_eq || (rewrite lookup_insert_ne by done)
          || rewrite lookup_delete_eq || (rewrite lookup_delete_ne by done)
          || rewrite lookup_empty);
  unfold default, from_option, id.

(** X7.  [from_dict] fills in what a dictionary leaves out exactly as the
    constructor does: from a dictionary holding only [job_id] and [query] it
    returns the state [ResearchState(job_id, query)], and so it does when
    [constraints] and [output_config] are present but falsy ([None], an
    empty dictionary, ...). *)
Theorem from_dict_defaults `{MessageCodec} (u : UUID) (q : string) (c oc : value) :
  valid_uuid u → truthy c = false → truthy oc = false →
  from_dict (<["job_id" := VStr (uuid_str u)]> (<["query" := VStr q]> ∅))
  = Returned (ResearchState_init u q None None)
  ∧ from_dict (<["job_id" := VStr (uuid_str u)]> (<["query" := VStr q]>
                 (<["constraints" := c]> (<["output_config" := oc]> ∅))))
    = Returned (ResearchState_init u q None None).
Proof.
  intros Hu Hc Hoc. split; from_dict_lookups.
  - rewrite bind_Returned. cbn [as_str]. rewrite bind_Returned, (uuid_parse_str _ Hu).
    reflexivity.
  - rewrite bind_Returned. cbn [as_str]. rewrite bind_Returned, (uuid_parse_str _ Hu).
    unfold init_dict_arg. rewrite Hc, Hoc. reflexivity.
Qed.

Lemma from_dict_defaults_witness :
  @from_dict field_codec (<["job_id" := VStr (uuid_str 7)]> (<["query" := VStr "impact of X"]> ∅))
  = Returned (ResearchState_init 7 "impact of X" None None)
  ∧ @from_dict field_codec
      (<["job_id" := VStr (uuid_str 7)]> (<["query" := VStr "impact of X"]>
         (<["constraints" := VNone]> (<["output_config" := VDict ∅]> ∅))))
    = Returned (ResearchState_init 7 "impact of X" None None).
Proof.
  apply (@from_dict_defaults field_codec 7 "impact of X" VNone (VDict ∅)); reflexivity.
Defined.

(** X8.  [from_dict] requires [job_id] and [query]: without [job_id] it
    raises [KeyError] for that key, whatever else the dictionary holds; with
    a [job_id] string that [UUID] rejects it raises the [ValueError] of
    [UUID]; with a [job_id] string that [UUID] accepts (32 hexadecimal
    digits, with or without dashes, braces and the prefixes [urn:] and
    [uuid:], and with what [int] tolerates around digits) but no [query] it
    raises [KeyError] for [query]. *)
Theorem from_dict_requires_job_id_and_query `{MessageCodec} (data : gmap string value)
    (s : string) :
  from_dict (delete "job_id" data) = Raised (KeyError "job_id")
  ∧ match uuid_parse s with
    | Returned u =>
        from_dict (<["job_id" := VStr s]> (delete "query" data)) = Raised (KeyError "query")
    | Raised e => from_dict (<["job_id" := VStr s]> data) = Raised e
    end.
Proof.
  split; [by from_dict_lookups|].
  destruct (uuid_parse s) as [u|e] eqn:Hs; from_dict_lookups;
    rewrite bind_Returned; cbn [as_str]; rewrite bind_Returned, Hs; reflexivity.
Qed.

(** ** Cancelling a job *)

(** X11.  [cancel_job] touches at most the one job it is called for: the
    workflow states, every other job, and the owner and error list of every
    job are as before, whether it succeeds or raises; after a cancellation
    that succeeded, cancelling the same job again is rejected with HTTP 400
    and changes nothing; and when the job service finds no such job for the
    caller the answer is HTTP 404 with nothing changed. *)
Theorem cancel_job_touches_one_job (jid : UUID) (user : N) (b : Backend) :
  let r := cancel_job jid user b in
  workflow_states r.1 = workflow_states b
  ∧ (∀ k, k ≠ jid → db_jobs r.1 !! k = db_jobs b !! k)
  ∧ (∀ k, job_owner <$> db_jobs r.1 !! k = job_owner <$> db_jobs b !! k)
  ∧ (∀ k, job_errors <$> db_jobs r.1 !! k = job_errors <$> db_jobs b !! k)
  ∧ (∀ msg, r.2 = Returned msg →
       cancel_job jid user r.1
       = (r.1, Raised (HTTPException 400 "Cannot cancel completed or failed job")))
  ∧ (get_job_by_id jid user (db_jobs b) = None →
     r = (b, Raised (HTTPException 404 "Job not found"))).
Proof.
  cbv zeta.
  destruct (get_job_by_id jid user (db_jobs b)) as [job|] eqn:Hget;
    [|unfold_endpoint; rewrite Hget; by repeat split].
  rewrite (cancel_job_eq _ _ _ _ Hget).
  destruct (bool_decide (job_status job ∈ [COMPLETED; FAILED])); [by repeat split|].
  destruct (terminal (job_status job)); [by repeat split|].
  cbn [fst snd db_jobs workflow_states].
  apply get_job_by_id_Some in Hget as [Hjob Hown].
  split; [done|]. split; [by intros k Hk; rewrite lookup_insert_ne|].
  split; [|split; [|split; [|done]]].
  - intros k. destruct (decide (jid = k)) as [->|].
    + by rewrite lookup_insert_eq, Hjob.
    + by rewrite lookup_insert_ne.
  - intros k. destruct (decide (jid = k)) as [->|].
    + by rewrite lookup_insert_eq, Hjob.
    + by rewrite lookup_insert_ne.
  - intros msg _.
    rewrite (cancel_job_eq jid user _ (set_job_status FAILED job))
      by (apply get_job_by_id_Some; cbn [db_jobs]; rewrite lookup_insert_eq;
          split; [done|exact Hown]).
    reflexivity.
Qed.

(** ** Tokens and the current user *)

Lemma plain_jose_faithful : @jose_faithful plain_jose.
Proof.
  intros claims key alg algorithms now p. cbn.
  destruct (_ && _); [|discriminate]. by intros [= <-].
Qed.

Lemma wrong_payload_false `{JOSE} payload type :
  wrong_payload payload type = false →
  ∃ p, payload = Some p ∧ py_get p "type" = VStr type.
Proof.
  unfold wrong_payload. destruct payload as [p|]; [|discriminate].
  intros [_ Ht]%orb_false_elim. exists p. split; [done|].
  apply negb_false_iff in Ht. unfold eq_str in Ht.
  destruct (py_get p "type"); try discriminate. by apply bool_decide_eq_true in Ht as ->.
Qed.

Lemma wrong_payload_type `{JOSE} p type :
  py_get p "type" = VStr type → wrong_payload (Some p) type = false.
Proof.
  intros Ht. unfold wrong_payload, eq_str, truthy. rewrite Ht.
  rewrite (bool_decide_eq_true_2 (type = type)) by done.
  rewrite (bool_decide_eq_false_2 (p = ∅)); [done|].
  intros ->. unfold py_get in Ht. by rewrite lookup_empty in Ht.
Qed.

Lemma wrong_payload_other_type `{JOSE} p type type' :
  py_get p "type" = VStr type' → type' ≠ type → wrong_payload (Some p) type = true.
Proof.
  intros Ht Hne. unfold wrong_payload, eq_str. rewrite Ht.
  rewrite (bool_decide_eq_false_2 (type' = type)) by done. apply orb_true_r.
Qed.

(** X12.  [get_current_user] accepts a token only if [verify_token] decoded
    it, its [type] claim is [access], it has a [sub] claim other than
    [None] and [int] reads that claim; the user returned carries that number
    as [id], the [email] claim, and the [roles] claim or, without one, the
    single role [user]. *)
Theorem get_current_user_accepts_access_tokens_only `{JOSE} `{PyInt}
    (self : SecurityManager) (token : Token) (now : Z) (user : gmap string value) :
  get_current_user self token now = Returned user →
  ∃ p id,
    verify_token self token now = Some p
    ∧ py_get p "type" = VStr "access"
    ∧ py_get p "sub" ≠ VNone
    ∧ py_int (py_get p "sub") = Returned id
    ∧ user = user_of id p.
Proof.
  unfold get_current_user.
  destruct (wrong_payload (verify_token self token now) "access") eqn:Hw; [discriminate|].
  apply wrong_payload_false in Hw as (p & -> & Ht). cbv zeta.
  change (default ∅ (Some p)) with p.
  destruct (py_int (py_get p "sub")) as [id|e] eqn:Hid.
  - intros Hu. exists p, id. repeat split; try done.
    + intros Hs. by rewrite Hs in Hu.
    + destruct (py_get p "sub"); first [discriminate Hu | by injection Hu as <-].
  - intros Hu. destruct (py_get p "sub"); discriminate Hu.
Qed.

Lemma get_current_user_access_claims `{JOSE} `{PyInt} self token now p id :
  verify_token self token now = Some p →
  py_get p "type" = VStr "access" →
  py_get p "sub" = VStr (py_str id) →
  int_of_str (py_str id) = Returned id →
  get_current_user self token now = Returned (user_of id p).
Proof.
  intros Hv Ht Hs Hi. unfold get_current_user. rewrite Hv, (wrong_payload_type _ _ Ht).
  cbv zeta. change (default ∅ (Some p)) with p. rewrite Hs. cbn [py_int]. by rewrite Hi.
Qed.

Lemma to_encode_type type expire data : py_get (to_encode type expire data) "type" = VStr type.
Proof. unfold py_get, to_encode. by rewrite lookup_insert_eq. Qed.

Lemma to_encode_other type expire data k :
  k ≠ "type" → k ≠ "exp" → to_encode type expire data !! k = data !! k.
Proof. intros. unfold to_encode. by rewrite !lookup_insert_ne. Qed.

Lemma faithful_payload `{JOSE} self type expire data now p k :
  jose_faithful →
  verify_token self (jwt_encode (to_encode type expire data) (secret_key self) (algorithm self))
    now = Some p →
  (py_get p "type" = VStr type)
  ∧ (k ≠ "type" → k ≠ "exp" → p !! k = data !! k).
Proof.
  intros Hf Hv. unfold verify_token in Hv. split.
  - unfold py_get. rewrite (Hf _ _ _ _ _ _ Hv) by done. apply to_encode_type.
  - intros. rewrite (Hf _ _ _ _ _ _ Hv) by done. by apply to_encode_other.
Qed.

(** X13.  Round trip of [create_tokens] and [get_current_user]: when the
    library decodes only what was encoded, the access token verifies at the
    time of the request and [int] reads back what [str] printed, the access
    token of [create_tokens(user_id, email, roles)] identifies the user with
    that id, that email and those roles, the single role [user] standing in
    for [None] or an empty list. *)
Theorem access_token_identifies_the_user `{JOSE} `{PyInt} (self : SecurityManager)
    (user_id : Z) (email : string) (roles : option (list string))
    (now_access now_refresh now : Z) :
  let tokens := create_tokens self user_id email roles now_access now_refresh in
  jose_faithful →
  is_Some (verify_token self (access_token tokens) now) →
  int_of_str (py_str user_id) = Returned user_id →
  get_current_user self (access_token tokens) now
  = Returned (<["id" := VInt user_id]>
             (<["email" := VStr email]>
             (<["roles" := VList (VStr <$> roles_or_user roles)]> ∅))).
Proof.
  intros tokens Hf [p Hv] Hi. unfold tokens, create_tokens in *.
  cbn [access_token] in *. unfold create_access_token in *.
  pose proof (faithful_payload self _ _ _ _ _ "sub" Hf Hv) as [Ht Hsub].
  pose proof (faithful_payload self _ _ _ _ _ "email" Hf Hv) as [_ Hemail].
  pose proof (faithful_payload self _ _ _ _ _ "roles" Hf Hv) as [_ Hroles].
  unfold token_data in Hsub, Hemail, Hroles.
  rewrite lookup_insert_eq in Hsub by done.
  rewrite lookup_insert_ne, lookup_insert_eq in Hemail by done.
  rewrite !lookup_insert_ne, lookup_insert_eq in Hroles by done.
  rewrite (get_current_user_access_claims self _ now p user_id Hv Ht); [|by unfold py_get; rewrite Hsub|done].
  unfold user_of, py_get, py_get_default. rewrite Hemail, Hroles; done.
Qed.

Lemma sample_access_token_verifies :
  @get_current_user plain_jose decimal_int sample_manager
    (@access_token plain_jose
       (@create_tokens plain_jose sample_manager 42 "ada@example.org" None 1000 1000)) 2000
  = Returned (<["id" := VInt 42]>
             (<["email" := VStr "ada@example.org"]>
             (<["roles" := VList (VStr <$> roles_or_user None)]> ∅))).
Proof.
  apply (@access_token_identifies_the_user plain_jose decimal_int sample_manager 42
           "ada@example.org" None 1000 1000 2000).
  - apply plain_jose_faithful.
  - by eexists.
  - reflexivity.
Defined.

Lemma sample_user_comes_from_an_access_token :
  ∃ p id,
    @verify_token plain_jose sample_manager
      (@create_access_token plain_jose sample_manager
         (token_data 42 "ada@example.org" None) None 1000) 2000 = Some p
    ∧ py_get p "type" = VStr "access"
    ∧ py_get p "sub" ≠ VNone
    ∧ @py_int decimal_int (py_get p "sub") = Returned id
    ∧ <["id" := VInt 42]>
        (<["email" := VStr "ada@example.org"]>
        (<["roles" := VList [VStr "user"]]> ∅)) = user_of id p.
Proof.
  apply (@get_current_user_accepts_access_tokens_only plain_jose decimal_int sample_manager
           (@create_access_token plain_jose sample_manager
              (token_data 42 "ada@example.org" None) None 1000) 2000).
  reflexivity.
Defined.

(** X14.  The two kinds of token are not interchangeable, whatever [data]
    says (a [type] entry in [data] is overwritten): when the library decodes
    only what was encoded, a token made by [create_refresh_token] is
    rejected by [get_current_user] with HTTP 401 and gives [None] in
    [get_optional_user], and a token made by [create_access_token] is
    refused by [refresh_access_token]. *)
Theorem token_types_are_not_interchangeable `{JOSE} `{PyInt} (self : SecurityManager)
    (data : gmap string value) (expires_delta : option Z) (now_made now now' : Z) :
  jose_faithful →
  get_current_user self (create_refresh_token self data expires_delta now_made) now
  = Raised unauthorized
  ∧ refresh_access_token self (create_access_token self data expires_delta now_made) now now'
    = None
  ∧ get_optional_user self (Some (create_refresh_token self data expires_delta now_made)) now
    = Returned None.
Proof.
  intros Hf.
  assert (get_current_user self (create_refresh_token self data expires_delta now_made) now
          = Raised unauthorized) as Hg.
  { unfold get_current_user, create_refresh_token.
    destruct (verify_token self _ now) as [p|] eqn:Hv; [|reflexivity].
    destruct (faithful_payload self _ _ _ _ _ "sub" Hf Hv) as [Ht _].
    by rewrite (wrong_payload_other_type p "access" "refresh" Ht). }
  split; [exact Hg|]. split.
  - unfold refresh_access_token, create_access_token.
    destruct (verify_token self _ now) as [p|] eqn:Hv; [|reflexivity].
    destruct (faithful_payload self _ _ _ _ _ "sub" Hf Hv) as [Ht _].
    by rewrite (wrong_payload_other_type p "refresh" "access" Ht).
  - unfold get_optional_user. by rewrite Hg.
Qed.

Lemma sample_refresh_token_is_no_access_token :
  @get_current_user plain_jose decimal_int sample_manager
    (@create_refresh_token plain_jose sample_manager
       (<["type" := VStr "access"]> (token_data 42 "ada@example.org" None)) None 1000) 2000
  = Raised unauthorized
  ∧ @refresh_access_token plain_jose sample_manager
      (@create_access_token plain_jose sample_manager
         (<["type" := VStr "access"]> (token_data 42 "ada@example.org" None)) None 1000)
      2000 3000
    = None
  ∧ @get_optional_user plain_jose decimal_int sample_manager
      (Some (@create_refresh_token plain_jose sample_manager
         (<["type" := VStr "access"]> (token_data 42 "ada@example.org" None)) None 1000)) 2000
    = Returned None.
Proof.
  apply (@token_types_are_not_interchangeable plain_jose decimal_int sample_manager).
  apply plain_jose_faithful.
Defined.

(** X15.  Refreshing keeps the identity: under the same assumptions on the
    library and on [int], [refresh_access_token] on the refresh token of
    [create_tokens(user_id, email, roles)] returns a token, and if that
    token verifies, [get_current_user] identifies with it the same user id,
    email and roles. *)
Theorem refreshed_token_identifies_the_same_user `{JOSE} `{PyInt} (self : SecurityManager)
    (user_id : Z) (email : string) (roles : option (list string))
    (now_access now_refresh now_verify now_create now : Z) :
  let tokens := create_tokens self user_id email roles now_access now_refresh in
  jose_faithful →
  is_Some (verify_token self (refresh_token tokens) now_verify) →
  int_of_str (py_str user_id) = Returned user_id →
  ∃ token,
    refresh_access_token self (refresh_token tokens) now_verify now_create = Some token
    ∧ (is_Some (verify_token self token now) →
       get_current_user self token now
       = Returned (<["id" := VInt user_id]>
                  (<["email" := VStr email]>
                  (<["roles" := VList (VStr <$> roles_or_user roles)]> ∅)))).
Proof.
  intros tokens Hf [p Hv] Hi. unfold tokens, create_tokens in *.
  cbn [refresh_token] in *. unfold create_refresh_token in *.
  pose proof (faithful_payload self _ _ _ _ _ "sub" Hf Hv) as [Ht Hsub].
  pose proof (faithful_payload self _ _ _ _ _ "email" Hf Hv) as [_ Hemail].
  pose proof (faithful_payload self _ _ _ _ _ "roles" Hf Hv) as [_ Hroles].
  unfold token_data in Hsub, Hemail, Hroles.
  rewrite lookup_insert_eq in Hsub by done.
  rewrite lookup_insert_ne, lookup_insert_eq in Hemail by done.
  rewrite !lookup_insert_ne, lookup_insert_eq in Hroles by done.
  unfold refresh_access_token. rewrite Hv, (wrong_payload_type _ _ Ht). cbv zeta.
  change (default ∅ (Some p)) with p.
  eexists. split; [reflexivity|]. intros [p' Hv'].
  unfold create_access_token in *.
  pose proof (faithful_payload self _ _ _ _ _ "sub" Hf Hv') as [Ht' Hsub'].
  pose proof (faithful_payload self _ _ _ _ _ "email" Hf Hv') as [_ Hemail'].
  pose proof (faithful_payload self _ _ _ _ _ "roles" Hf Hv') as [_ Hroles'].
  rewrite lookup_insert_eq in Hsub' by done.
  rewrite lookup_insert_ne, lookup_insert_eq in Hemail' by done.
  rewrite !lookup_insert_ne, lookup_insert_eq in Hroles' by done.
  unfold py_get, py_get_default in Hsub', Hemail', Hroles'.
  rewrite Hsub in Hsub' by done. rewrite Hemail in Hemail' by done.
  rewrite Hroles in Hroles' by done. cbn [default] in *.
  rewrite (get_current_user_access_claims self _ now p' user_id Hv' Ht');
    [|by unfold py_get; rewrite Hsub'|done].
  unfold user_of, py_get, py_get_default. rewrite Hemail', Hroles'; done.
Qed.

Lemma sample_refreshed_token_identifies_the_same_user :
  ∃ token,
    @refresh_access_token plain_jose sample_manager
      (@refresh_token plain_jose
         (@create_tokens plain_jose sample_manager 42 "ada@example.org" (Some ["admin"])
            1000 1000)) 2000 3000 = Some token
    ∧ (is_Some (@verify_token plain_jose sample_manager token 4000) →
       @get_current_user plain_jose decimal_int sample_manager token 4000
       = Returned (<["id" := VInt 42]>
                  (<["email" := VStr "ada@example.org"]>
                  (<["roles" := VList (VStr <$> roles_or_user (Some ["admin"]))]> ∅)))).
Proof.
  apply (@refreshed_token_identifies_the_same_user plain_jose decimal_int sample_manager 42
           "ada@example.org" (Some ["admin"]) 1000 1000 2000 3000 4000).
  - apply plain_jose_faithful.
  - by eexists.
  - reflexivity.
Defined.

(** X16.  A verified access token whose [sub] claim is text that [int]
    rejects does not give HTTP 401: the [ValueError] of [int] leaves
    [get_current_user] as it is, and [get_optional_user], which catches
    [HTTPException] only, lets it through as well. *)
Theorem subject_that_is_no_number_is_not_a_401 `{JOSE} `{PyInt} (self : SecurityManager)
    (token : Token) (now : Z) (p : gmap string value) (s msg : string) :
  verify_token self token now = Some p →
  py_get p "type" = VStr "access" →
  py_get p "sub" = VStr s →
  int_of_str s = Raised (ValueError msg) →
  get_current_user self token now = Raised (ValueError msg)
  ∧ get_optional_user self (Some token) now = Raised (ValueError msg).
Proof.
  intros Hv Ht Hs Hi.
  assert (get_current_user self token now = Raised (ValueError msg)) as Hg.
  { unfold get_current_user. rewrite Hv, (wrong_payload_type _ _ Ht). cbv zeta.
    change (default ∅ (Some p)) with p. rewrite Hs. cbn [py_int]. by rewrite Hi. }
  split; [exact Hg|]. unfold get_optional_user. by rewrite Hg.
Qed.

Lemma sample_subject_that_is_no_number :
  let token := @create_access_token plain_jose sample_manager
                 (<["sub" := VStr "ada"]> ∅) None 1000 in
  @get_current_user plain_jose decimal_int sample_manager token 2000
  = Raised (ValueError "invalid literal for int() with base 10")
  ∧ @get_optional_user plain_jose decimal_int sample_manager (Some token) 2000
    = Raised (ValueError "invalid literal for int() with base 10").
Proof.
  apply (@subject_that_is_no_number_is_not_a_401 plain_jose decimal_int sample_manager _ 2000
           (to_encode "access" (1000 + minutes 30) (<["sub" := VStr "ada"]> ∅)) "ada");
    reflexivity.
Defined.

(** ** Role checks *)

Lemma existsb_eq_str (roles : list string) (s : string) :
  existsb (fun x => eq_str x s) (VStr <$> roles) = bool_decide (s ∈ roles).
Proof.
  induction roles as [|r roles IH]; [done|].
  rewrite fmap_cons. cbn [existsb eq_str]. rewrite IH.
  destruct (decide (r = s)) as [->|Hne].
  - rewrite (bool_decide_eq_true_2 (s = s)) by done.
    by rewrite (bool_decide_eq_true_2 (s ∈ s :: roles)) by (by left).
  - rewrite (bool_decide_eq_false_2 (r = s)) by done. cbn.
    apply bool_decide_ext. split; [intros; by right|].
    intros [Heq|Hin]%elem_of_cons; [by destruct Hne|done].
Qed.

Lemma any_role_in_list (required roles : list string) :
  any_role_in required (VList (VStr <$> roles))
  = Returned (bool_decide (Exists (fun r => r ∈ roles) required)).
Proof.
  induction required as [|r required IH].
  - reflexivity.
  - cbn [any_role_in str_in]. rewrite bind_Returned, existsb_eq_str.
    destruct (decide (r ∈ roles)) as [Hin|Hnin].
    + rewrite (bool_decide_eq_true_2 (r ∈ roles)) by done.
      by rewrite (bool_decide_eq_true_2 (Exists _ _)) by (by left).
    + rewrite (bool_decide_eq_false_2 (r ∈ roles)) by done. rewrite IH. f_equal.
      apply bool_decide_ext. split; [intros; by right|].
      intros [Hin|Hex]%Exists_cons; [by destruct Hnin|done].
Qed.

(** X17.  For a user whose [roles] entry is a list of strings:
    [require_roles] lets the user through exactly when one of the required
    roles is among the user's, and otherwise raises HTTP 403;
    [require_admin] lets the user through exactly when [admin] is among the
    roles, that is exactly when [require_roles(["admin"])] does. *)
Theorem role_checks_on_a_list_of_roles (required_roles : list string)
    (current_user : gmap string value) (roles : list string) :
  current_user !! "roles" = Some (VList (VStr <$> roles)) →
  (require_roles required_roles current_user = Returned current_user
   ↔ ∃ role, role ∈ required_roles ∧ role ∈ roles)
  ∧ (require_roles required_roles current_user = Returned current_user
     ∨ require_roles required_roles current_user = Raised forbidden)
  ∧ (require_admin current_user = Returned current_user ↔ "admin" ∈ roles)
  ∧ (require_admin current_user = Returned current_user
     ↔ require_roles ["admin"] current_user = Returned current_user).
Proof.
  intros Hroles.
  assert (∀ required, require_roles required current_user
            = if bool_decide (Exists (fun r => r ∈ roles) required)
              then Returned current_user else Raised forbidden) as Hreq.
  { intros required. unfold require_roles, py_get_default. rewrite Hroles. cbv zeta. unfold default, from_option, id.
    by rewrite any_role_in_list, bind_Returned. }
  assert (require_admin current_user
          = if bool_decide ("admin" ∈ roles) then Returned current_user
            else Raised (HTTPException 403 "Admin access required")) as Hadm.
  { unfold require_admin, py_get_default. rewrite Hroles. unfold default, from_option, id.
    cbn [str_in].
    by rewrite bind_Returned, existsb_eq_str. }
  rewrite Hadm, !Hreq. clear Hadm Hreq.
  destruct (decide (Exists (fun r => r ∈ roles) required_roles)) as [Hex|Hex];
    [rewrite (bool_decide_eq_true_2 _ Hex)|rewrite (bool_decide_eq_false_2 _ Hex)];
    (destruct (decide ("admin" ∈ roles)) as [Hin|Hin];
     [rewrite (bool_decide_eq_true_2 _ Hin),
        (bool_decide_eq_true_2 (Exists _ ["admin"])) by (by left)
     |rewrite (bool_decide_eq_false_2 _ Hin),
        (bool_decide_eq_false_2 (Exists _ ["admin"]))
        by (by intros [?|[]%Exists_nil]%Exists_cons)]);
    (split; [|split; [auto|split; split; done]]).
  - split; [|done]. intros _. by apply Exists_exists in Hex.
  - split; [|done]. intros _. by apply Exists_exists in Hex.
  - split; [done|]. intros Hex'. destruct Hex. by apply Exists_exists.
  - split; [done|]. intros Hex'. destruct Hex. by apply Exists_exists.
Qed.

Lemma role_checks_on_a_sample_user :
  let user := <["id" := VInt 42]> (<["roles" := VList (VStr <$> ["user"; "editor"])]> ∅) in
  (require_roles ["admin"; "editor"] user = Returned user
   ↔ ∃ role, role ∈ ["admin"; "editor"] ∧ role ∈ ["user"; "editor"])
  ∧ (require_roles ["admin"; "editor"] user = Returned user
     ∨ require_roles ["admin"; "editor"] user = Raised forbidden)
  ∧ (require_admin user = Returned user ↔ "admin" ∈ ["user"; "editor"])
  ∧ (require_admin user = Returned user ↔ require_roles ["admin"] user = Returned user).
Proof.
  apply (role_checks_on_a_list_of_roles ["admin"; "editor"]
           (<["id" := VInt 42]> (<["roles" := VList (VStr <$> ["user"; "editor"])]> ∅))
           ["user"; "editor"]).
  reflexivity.
Defined.

(** X18.  The role checks reject by default: [require_roles] with an empty
    list of required roles rejects every user with HTTP 403, and a user
    without a [roles] entry is rejected by [require_roles], whatever roles
    are required, and by [require_admin]. *)
Theorem role_checks_reject_by_default :
  (∀ current_user, require_roles [] current_user = Raised forbidden)
  ∧ (∀ required_roles current_user,
       current_user !! "roles" = None →
       require_roles required_roles current_user = Raised forbidden
       ∧ require_admin current_user = Raised (HTTPException 403 "Admin access required")).
Proof.
  split; [done|]. intros required user Hnone.
  unfold require_roles, require_admin, py_get_default. rewrite Hnone. cbv zeta. unfold default, from_option, id.
  split; [|done]. induction required as [|r required IH]; [done|].
  cbn [any_role_in str_in existsb]. by rewrite bind_Returned.
Qed.

Lemma prefix_app (s t : string) : String.prefix s (s +:+ t) = true.
Proof.
  induction s as [|c s IH]; [by destruct t|].
  change (String.prefix (String c s) (String c s +:+ t))
    with (if Ascii.ascii_dec c c then String.prefix s (s +:+ t) else false).
  destruct (Ascii.ascii_dec c c); [exact IH|done].
Qed.

Lemma str_contains_app (pre s post : string) : str_contains s (pre +:+ s +:+ post) = true.
Proof.
  induction pre as [|c pre IH].
  - change ("" +:+ s +:+ post) with (s +:+ post).
    pose proof (prefix_app s post) as Hp.
    destruct (s +:+ post); cbn [str_contains]; by rewrite Hp.
  - change (str_contains s (String c pre +:+ s +:+ post))
      with (String.prefix s (String c (pre +:+ s +:+ post))
            || str_contains s (pre +:+ s +:+ post)).
    rewrite IH. apply orb_true_r.
Qed.

(** X19.  When the [roles] entry of the user is a string and not a list,
    the checks test for a substring: a required role that occurs anywhere
    inside that string passes [require_roles], and a string with [admin]
    inside it passes [require_admin]. *)
Theorem roles_given_as_a_string_match_by_substring (role pre post : string)
    (current_user : gmap string value) :
  current_user !! "roles" = Some (VStr (pre +:+ role +:+ post)) →
  require_roles [role] current_user = Returned current_user
  ∧ (role = "admin" → require_admin current_user = Returned current_user).
Proof.
  intros Hroles. unfold require_roles, require_admin, py_get_default. rewrite Hroles.
  cbv zeta. unfold default, from_option, id. cbn [any_role_in str_in]. rewrite !bind_Returned.
  split.
  - by rewrite str_contains_app.
  - intros ->. by rewrite str_contains_app.
Qed.

Lemma superadministrator_passes_the_admin_check :
  let user := <["roles" := VStr "superadministrator"]> ∅ in
  require_roles ["admin"] user = Returned user
  ∧ ("admin" = "admin" → require_admin user = Returned user).
Proof.
  apply (roles_given_as_a_string_match_by_substring "admin" "super" "istrator"
           (<["roles" := VStr "superadministrator"]> ∅)).
  reflexivity.
Defined.

(** ** The rate limiter *)

Lemma is_rate_limited_eq identifier limit window now (self : RateLimiter) :
  let key := rate_key identifier window in
  let kept := in_window now window (default [] (self !! key)) in
  is_rate_limited identifier limit window now self =
  if bool_decide (limit ≤ Z.of_nat (length kept))%Z then (<[key := kept]> self, true)
  else (<[key := (kept ++ [now])%list]> self, false).
Proof.
  cbv zeta. unfold is_rate_limited.
  destruct (self !! rate_key identifier window) as [l|] eqn:Hl.
  - rewrite (bool_decide_eq_true_2 (is_Some (Some l))) by (by eexists). rewrite Hl.
    unfold default, from_option, id. case_bool_decide; [done|]. by rewrite insert_insert_eq.
  - rewrite (bool_decide_eq_false_2 (is_Some None)) by (by intros [? ?]).
    rewrite lookup_insert_eq.
    unfold default, from_option, id. case_bool_decide; by rewrite !insert_insert_eq.
Qed.

Lemma timedelta_seconds_range d : (0 ≤ timedelta_seconds d < 86400)%Z.
Proof.
  unfold timedelta_seconds.
  pose proof (Z.mod_pos_bound d 86400000000 ltac:(lia)) as Hm.
  split; [apply Z.div_pos; lia|].
  apply Z.div_lt_upper_bound; lia.
Qed.

Lemma timedelta_seconds_days d n :
  timedelta_seconds (d + n * 86400000000) = timedelta_seconds d.
Proof. unfold timedelta_seconds. by rewrite Z.mod_add by lia. Qed.

Lemma in_window_idemp now window l :
  in_window now window (in_window now window l) = in_window now window l.
Proof.
  unfold in_window. induction l as [|t l IH]; [done|].
  rewrite filter_cons. case_decide as Ht; [|done].
  rewrite filter_cons, decide_True by done. by rewrite IH.
Qed.

Lemma in_window_now now window l :
  (0 < window)%Z →
  in_window now window (l ++ [now]) = (in_window now window l ++ [now])%list.
Proof.
  intros Hw. unfold in_window. rewrite filter_app. f_equal.
  rewrite filter_cons, decide_True; [done|].
  by rewrite Z.sub_diag.
Qed.

Lemma in_window_non_positive now window l : (window ≤ 0)%Z → in_window now window l = [].
Proof.
  intros Hw. unfold in_window. induction l as [|t l IH]; [done|].
  rewrite filter_cons, decide_False; [done|].
  pose proof (timedelta_seconds_range (now - t)). lia.
Qed.

(** X20.  [is_rate_limited] works on the one key of the client and window:
    the lists under all other keys are untouched; the request is refused
    exactly when the requests kept for the window number [limit] or more;
    the key then holds the requests kept, followed by the time of this
    request when it was let through; and after a request that was let
    through the key holds at most [limit] requests. *)
Theorem is_rate_limited_counts_one_client (identifier : string) (limit window now : Z)
    (self : RateLimiter) :
  let key := rate_key identifier window in
  let kept := in_window now window (default [] (self !! key)) in
  let r := is_rate_limited identifier limit window now self in
  (∀ k, k ≠ key → r.1 !! k = self !! k)
  ∧ (r.2 = true ↔ (limit ≤ Z.of_nat (length kept))%Z)
  ∧ r.1 !! key = Some (kept ++ (if r.2 then [] else [now]))%list
  ∧ (r.2 = false → (Z.of_nat (length (default [] (r.1 !! key))) ≤ limit)%Z).
Proof.
  cbv zeta. rewrite is_rate_limited_eq. cbv zeta.
  case_bool_decide as Hlim; cbn [fst snd].
  - split; [by intros k Hk; rewrite lookup_insert_ne|].
    split; [done|]. rewrite lookup_insert_eq, app_nil_r. done.
  - split; [by intros k Hk; rewrite lookup_insert_ne|].
    split; [split; [done|by intros ?]|]. rewrite lookup_insert_eq. split; [done|].
    intros _. unfold default, from_option, id in *. rewrite length_app. cbn [length]. lia.
Qed.

(** X21.  Limits and windows that are not positive: with a limit of zero or
    less every request is refused and [rate_limit] raises HTTP 429; with a
    window of zero seconds or less and a positive limit no request is ever
    refused, since no earlier request counts: the key is left holding the
    present request only and [rate_limit] returns [True]. *)
Theorem limits_and_windows_that_are_not_positive (identifier : string)
    (limit window now now' : Z) (self : RateLimiter) :
  ((limit ≤ 0)%Z →
   (is_rate_limited identifier limit window now self).2 = true
   ∧ ∃ detail, (rate_limit identifier limit window now now' self).2
               = Raised (HTTPException 429 detail))
  ∧ ((window ≤ 0)%Z → (0 < limit)%Z →
     is_rate_limited identifier limit window now self
     = (<[rate_key identifier window := [now]]> self, false)
     ∧ (rate_limit identifier limit window now now' self).2 = Returned true).
Proof.
  unfold rate_limit. rewrite is_rate_limited_eq. cbv zeta. split.
  - intros Hlim. rewrite bool_decide_eq_true_2 by lia. split; [done|].
    destruct (get_remaining_requests _ _ _ _ _). by eexists.
  - intros Hw Hlim. rewrite in_window_non_positive by done. cbn [length app].
    by rewrite bool_decide_eq_false_2 by lia.
Qed.

(** X22.  The limiter measures the age of a request by [timedelta.seconds],
    which leaves out whole days: moving the clock by any number of days
    changes neither which requests are kept for the window, nor the answer
    of [is_rate_limited], nor the count [get_remaining_requests] returns.
    A request made some days ago at this time of day counts as if just
    made. *)
Theorem rate_limiter_forgets_whole_days (identifier : string) (limit window now n : Z)
    (self : RateLimiter) (timestamps : list Z) :
  let later := (now + n * 86400000000)%Z in
  in_window later window timestamps = in_window now window timestamps
  ∧ (is_rate_limited identifier limit window later self).2
    = (is_rate_limited identifier limit window now self).2
  ∧ (get_remaining_requests identifier limit window later self).2
    = (get_remaining_requests identifier limit window now self).2.
Proof.
  cbv zeta.
  assert (∀ l, in_window (now + n * 86400000000) window l = in_window now window l) as Hin.
  { intros l. unfold in_window. apply list_filter_iff. intros t.
    replace (now + n * 86400000000 - t)%Z with (now - t + n * 86400000000)%Z by lia.
    by rewrite timedelta_seconds_days. }
  split; [apply Hin|]. split.
  - rewrite !is_rate_limited_eq. cbv zeta. rewrite Hin. by case_bool_decide.
  - unfold get_remaining_requests. destruct (self !! _); [|done]. cbn [snd]. by rewrite Hin.
Qed.

(** X23.  [get_remaining_requests] read at the same clock time right after
    [is_rate_limited]: after a refused request it returns 0; after a request
    that was let through, for a positive window, it returns [limit] less the
    requests that were kept and less one for the request itself, which is
    not negative; in both cases it leaves the limiter as it was. *)
Theorem remaining_requests_after_a_request (identifier : string) (limit window now : Z)
    (self : RateLimiter) :
  let key := rate_key identifier window in
  let count := Z.of_nat (length (in_window now window (default [] (self !! key)))) in
  let r := is_rate_limited identifier limit window now self in
  let remaining := get_remaining_requests identifier limit window now r.1 in
  (r.2 = true → remaining = (r.1, 0%Z))
  ∧ (r.2 = false → (0 < window)%Z →
     remaining = (r.1, (limit - count - 1)%Z) ∧ (0 ≤ limit - count - 1)%Z).
Proof.
  cbv zeta. rewrite is_rate_limited_eq. cbv zeta. unfold get_remaining_requests.
  case_bool_decide as Hlim; cbn [fst snd]; rewrite lookup_insert_eq.
  - split; [|done]. intros _. rewrite in_window_idemp, insert_insert_eq. f_equal. lia.
  - split; [done|]. intros _ Hw.
    rewrite in_window_now, in_window_idemp, insert_insert_eq by done.
    rewrite length_app. cbn [length]. split; [f_equal|]; lia.
Qed.

Lemma requests_fresh n identifier limit window now (self : RateLimiter) l :
  (0 < window)%Z →
  self !! rate_key identifier window = Some l →
  in_window now window l = l →
  (requests n identifier limit window now self).2
  = (replicate (n `min` Z.to_nat (limit - Z.of_nat (length l))) false
       ++ replicate (n - Z.to_nat (limit - Z.of_nat (length l))) true)%list.
Proof.
  intros Hw. revert self l. induction n as [|n IH]; intros self l Hl Hfresh; [done|].
  cbn [requests]. rewrite is_rate_limited_eq. cbv zeta. rewrite Hl. unfold default, from_option, id.
  rewrite Hfresh. case_bool_decide as Hlim.
  - specialize (IH (<[rate_key identifier window := l]> self) l).
    destruct (requests n _ _ _ _ _) as [self' answers]. cbn [snd] in *.
    rewrite IH; [|by rewrite lookup_insert_eq|done].
    replace (Z.to_nat (limit - Z.of_nat (length l))) with 0%nat by lia.
    rewrite !Nat.min_0_r, !Nat.sub_0_r. done.
  - specialize (IH (<[rate_key identifier window := (l ++ [now])%list]> self)
                  (l ++ [now])%list).
    destruct (requests n _ _ _ _ _) as [self' answers]. cbn [snd] in *.
    rewrite IH; [|by rewrite lookup_insert_eq|by rewrite in_window_now, Hfresh].
    rewrite length_app. cbn [length].
    replace (Z.to_nat (limit - Z.of_nat (length l)))
      with (S (Z.to_nat (limit - Z.of_nat (length l + 1)))) by lia.
    done.
Qed.

(** X24.  A burst is cut at the limit: of the requests one client sends at
    the same instant to a fresh limiter, with a positive window and a limit
    that is not negative, the first [limit] are let through and every
    further one is refused. *)
Theorem burst_is_cut_at_the_limit (identifier : string) (limit window now : Z) (extra : nat) :
  (0 < window)%Z → (0 ≤ limit)%Z →
  (requests (Z.to_nat limit + extra) identifier limit window now ∅).2
  = (replicate (Z.to_nat limit) false ++ replicate extra true)%list.
Proof.
  intros Hw Hlim.
  destruct (Z.to_nat limit + extra)%nat as [|n] eqn:Hn.
  { assert (Z.to_nat limit = 0 ∧ extra = 0)%nat as [-> ->] by lia. done. }
  cbn [requests]. rewrite is_rate_limited_eq. cbv zeta. rewrite lookup_empty.
  change (in_window now window (default [] None)) with (@nil Z).
  cbn [length app].
  case_bool_decide as Hz.
  - pose proof (requests_fresh n identifier limit window now
                  (<[rate_key identifier window := []]> ∅) [] Hw) as Hr.
    destruct (requests n _ _ _ _ _) as [self' answers]. cbn [snd] in *.
    rewrite Hr; [|by rewrite lookup_insert_eq|done]. cbn [length].
    replace (Z.to_nat limit) with 0%nat in * by lia.
    replace (Z.to_nat (limit - Z.of_nat 0)) with 0%nat by lia.
    rewrite Nat.min_0_r, Nat.sub_0_r. cbn [replicate app] in *.
    replace extra with (S n) by lia. done.
  - pose proof (requests_fresh n identifier limit window now
                  (<[rate_key identifier window := [now]]> ∅) [now] Hw) as Hr.
    destruct (requests n _ _ _ _ _) as [self' answers]. cbn [snd] in *.
    rewrite Hr; [|by rewrite lookup_insert_eq|].
    + cbn [length].
      replace (Z.to_nat limit) with (S (Z.to_nat (limit - Z.of_nat 1))) in * by lia.
      cbn [replicate app]. f_equal.
      replace (n `min` Z.to_nat (limit - Z.of_nat 1))%nat
        with (Z.to_nat (limit - Z.of_nat 1)) by lia.
      replace (n - Z.to_nat (limit - Z.of_nat 1))%nat with extra by lia. done.
    + unfold in_window. rewrite filter_cons, decide_True; [done|]. by rewrite Z.sub_diag.
Qed.

Lemma burst_of_five_at_limit_three :
  (requests (Z.to_nat 3 + 2) "10.0.0.1" 3 60 1000000 ∅).2
  = (replicate (Z.to_nat 3) false ++ replicate 2 true)%list.
Proof. apply (burst_is_cut_at_the_limit "10.0.0.1" 3 60 1000000 2); lia. Defined.

(** ** Sanitization and validation *)

Lemma remove_from_sublist (old : list N) (skip : nat) (s : list N) :
  remove_from old skip s `sublist_of` s.
Proof.
  revert skip. induction s as [|c s IH]; intros skip; [constructor|].
  cbn [remove_from]. destruct skip as [|k]; [|by apply sublist_cons].
  destruct (starts_with old (c :: s)); [by apply sublist_cons|by apply sublist_skip].
Qed.

Lemma remove_all_single (c : N) (s : list N) : c ∉ remove_all [c] s.
Proof.
  unfold remove_all. induction s as [|x s IH]; [by intros ?%elem_of_nil|].
  cbn [remove_from starts_with length]. destruct s as [|y s'].
  - case_bool_decide as Hx; cbn [andb remove_from].
    + by intros ?%elem_of_nil.
    + intros [->|?%elem_of_nil]%elem_of_cons; done.
  - case_bool_decide as Hx; cbn [andb]; [exact IH|].
    intros [->|Hin]%elem_of_cons; [done|by apply IH].
Qed.

Lemma sublist_not_elem_of (c : N) (l k : list N) : l `sublist_of` k → c ∉ k → c ∉ l.
Proof. intros Hsub Hk Hl. apply Hk. by eapply elem_of_sublist. Qed.

Lemma sublist_reverse (l k : list N) : l `sublist_of` k → reverse l `sublist_of` reverse k.
Proof.
  induction 1 as [|x l k _ IH|x l k _ IH]; [constructor|..]; rewrite ?reverse_cons.
  - by apply sublist_app.
  - rewrite <- (app_nil_r (reverse l)). apply sublist_app; [done|apply sublist_nil_l].
Qed.

Lemma lstrip_suffix (s : list N) : lstrip s `suffix_of` s.
Proof.
  induction s as [|c s IH]; [done|]. cbn [lstrip].
  destruct (is_space c); [by apply suffix_cons_r|done].
Qed.

Lemma lstrip_head (s : list N) (c : N) : head (lstrip s) = Some c → is_space c = false.
Proof.
  induction s as [|x s IH]; [done|]. cbn [lstrip].
  destruct (is_space x) eqn:Hx; [exact IH|]. by intros [= <-].
Qed.

Lemma suffix_last (l k : list N) (c : N) : l `suffix_of` k → last l = Some c → last k = Some c.
Proof. intros [pre ->] Hl. rewrite last_app, Hl. done. Qed.

Lemma suffix_sublist (l k : list N) : l `suffix_of` k → l `sublist_of` k.
Proof. intros [pre ->]. by apply sublist_inserts_l. Qed.

Lemma strip_sublist (s : list N) : strip s `sublist_of` s.
Proof.
  unfold strip. rewrite <- (reverse_involutive s) at 2. apply sublist_reverse.
  etrans; [apply suffix_sublist, lstrip_suffix|].
  apply sublist_reverse, suffix_sublist, lstrip_suffix.
Qed.

Lemma strip_ends (s : list N) (c : N) :
  (head (strip s) = Some c → is_space c = false)
  ∧ (last (strip s) = Some c → is_space c = false).
Proof.
  unfold strip. rewrite head_reverse, last_reverse. split; [|apply lstrip_head].
  intros Hl. apply (suffix_last _ _ _ (lstrip_suffix _)) in Hl.
  rewrite last_reverse in Hl. by apply lstrip_head in Hl.
Qed.

Lemma sanitize_steps_sublist (pats : list (list N)) (s : list N) :
  foldl (fun sanitized char => remove_all char sanitized) s pats `sublist_of` s.
Proof.
  revert s. induction pats as [|p pats IH]; intros s; [done|].
  cbn [foldl]. etrans; [apply IH|]. apply remove_from_sublist.
Qed.

Lemma sanitize_steps_single (c : N) (pats : list (list N)) (s : list N) :
  [c] ∈ pats → c ∉ foldl (fun sanitized char => remove_all char sanitized) s pats.
Proof.
  revert s. induction pats as [|p pats IH]; intros s Hin; [by apply elem_of_nil in Hin|].
  cbn [foldl]. apply elem_of_cons in Hin as [<-|Hin]; [|by apply IH].
  eapply sublist_not_elem_of; [apply sanitize_steps_sublist|apply remove_all_single].
Qed.

(** X25.  [sanitize_input] only deletes: what it returns is a subsequence
    of its input; it contains none of the characters less-than,
    greater-than, apostrophe, quotation mark, ampersand and semicolon, and
    neither starts nor ends with white space.  The pairs of the list are
    removed one after the other in a single pass each, so one can be left
    behind: from hyphen slash asterisk hyphen the result is hyphen
    hyphen. *)
Theorem sanitize_input_removes_the_dangerous_characters (input_string : list N) :
  let sanitized := sanitize_input input_string in
  sanitized `sublist_of` input_string
  ∧ Forall (fun c => c ∉ [60; 62; 39; 34; 38; 59]%N) sanitized
  ∧ (∀ c, head sanitized = Some c ∨ last sanitized = Some c → is_space c = false)
  ∧ sanitize_input [45; 47; 42; 45]%N = [45; 45]%N.
Proof.
  cbv zeta. split; [|split; [|split; [|by vm_compute]]]; unfold sanitize_input.
  - etrans; [apply strip_sublist|apply sanitize_steps_sublist].
  - apply Forall_forall. intros c Hc Hin.
    assert ([c] ∈ dangerous_chars) as Hpat.
    { unfold dangerous_chars.
      repeat (apply elem_of_cons in Hin as [->|Hin]; [by repeat constructor|]).
      by apply elem_of_nil in Hin. }
    revert Hc. eapply sublist_not_elem_of; [apply strip_sublist|].
    by apply sanitize_steps_single.
  - intros c. match goal with |- context [strip ?t] => destruct (strip_ends t c) end.
    intros [Hc|Hc]; auto.
Qed.

(** X26.  [validate_pagination] returns exactly when the page is at least 1
    and the size between 1 and [max_size], and then returns the page and
    size it was given; otherwise it raises HTTP 400 and nothing else, the
    message about the page taking precedence over the one about the
    size. *)
Theorem validate_pagination_bounds (page size max_size : Z) :
  (∀ r, validate_pagination page size max_size = Returned r
        ↔ (1 ≤ page ∧ 1 ≤ size ≤ max_size)%Z
          ∧ r = <["page" := VInt page]> (<["size" := VInt size]> ∅))
  ∧ (∀ e, validate_pagination page size max_size = Raised e →
          ∃ detail, e = HTTPException 400 detail)
  ∧ ((page < 1)%Z →
     validate_pagination page size max_size
     = Raised (HTTPException 400 "Page number must be greater than 0")).
Proof.
  unfold validate_pagination.
  destruct (decide (page < 1)%Z) as [Hp|Hp];
    [rewrite (bool_decide_eq_true_2 _ Hp)|rewrite (bool_decide_eq_false_2 _ Hp)].
  { split; [|split; [|done]].
    - intros r. split; [done|]. intros [[? _] _]. lia.
    - intros e [= <-]. by eexists. }
  destruct (decide (size < 1)%Z) as [Hs|Hs];
    [rewrite (bool_decide_eq_true_2 _ Hs)|rewrite (bool_decide_eq_false_2 _ Hs)];
    cbn [orb].
  { split; [|split; [|lia]].
    - intros r. split; [done|]. intros [[_ [? _]] _]. lia.
    - intros e [= <-]. by eexists. }
  destruct (decide (size > max_size)%Z) as [Hm|Hm];
    [rewrite (bool_decide_eq_true_2 _ Hm)|rewrite (bool_decide_eq_false_2 _ Hm)].
  { split; [|split; [|lia]].
    - intros r. split; [done|]. intros [[_ [_ ?]] _]. lia.
    - intros e [= <-]. by eexists. }
  split; [|split; [done|lia]].
  intros r. split.
  - intros [= <-]. split; [lia|done].
  - by intros [_ ->].
Qed.

Lemma lower_ascii_idemp (c : ascii) : lower_ascii (lower_ascii c) = lower_ascii c.
Proof. destruct c as [[] [] [] [] [] [] [] []]; reflexivity. Qed.

Lemma lower_idemp (s : string) : lower (lower s) = lower s.
Proof. induction s as [|c s IH]; [done|]. cbn [lower]. by rewrite lower_ascii_idemp, IH. Qed.

(** X27.  When [validate_sorting] returns, the order it returns is the
    given one in lower case and is [asc] or [desc], the sort field is
    returned as given, and validating the result again returns the same; a
    non-empty sort field has been checked against a non-empty list of
    allowed fields; and without such a list every sort field, whatever it
    is, is accepted with that order. *)
Theorem validate_sorting_normalises_the_order (sort_by : option string) (sort_order : string)
    (allowed_fields : option (list string)) (r : gmap string value) :
  validate_sorting sort_by sort_order allowed_fields = Returned r →
  r = <["sort_by" := opt_str sort_by]> (<["sort_order" := VStr (lower sort_order)]> ∅)
  ∧ (lower sort_order = "asc" ∨ lower sort_order = "desc")
  ∧ validate_sorting sort_by (lower sort_order) allowed_fields = Returned r
  ∧ (∀ field allowed, sort_by = Some field → field ≠ "" →
       allowed_fields = Some allowed → allowed ≠ [] → field ∈ allowed)
  ∧ (∀ any_field,
       validate_sorting any_field sort_order None
       = Returned (<["sort_by" := opt_str any_field]>
                  (<["sort_order" := VStr (lower sort_order)]> ∅))).
Proof.
  unfold validate_sorting. rewrite lower_idemp.
  destruct (truthy (opt_str sort_by) && negb (bool_decide (default [] allowed_fields = []))
            && negb (bool_decide (default "" sort_by ∈ default [] allowed_fields))) eqn:Hf;
    [discriminate|].
  destruct (bool_decide (lower sort_order ∈ ["asc"; "desc"])) eqn:Ho; [|discriminate].
  cbn [negb]. intros [= <-]. apply bool_decide_eq_true in Ho.
  split; [done|]. split; [|split; [done|split]].
  - apply elem_of_cons in Ho as [Ho|Ho]; [by left|].
    apply elem_of_cons in Ho as [Ho|Ho]; [by right|]. by apply elem_of_nil in Ho.
  - intros field allowed -> Hne -> Hall. cbn [default opt_str truthy] in Hf.
    unfold id in Hf.
    rewrite (bool_decide_eq_false_2 (field = "")) in Hf by done.
    rewrite (bool_decide_eq_false_2 (allowed = [])) in Hf by done.
    cbn [negb andb] in Hf. apply negb_false_iff in Hf. by apply bool_decide_eq_true in Hf.
  - intros any_field. cbn [default]. unfold id.
    rewrite (bool_decide_eq_true_2 (@nil string = [])) by done.
    cbn [negb]. rewrite andb_false_r. done.
Qed.

Lemma validate_sorting_sample :
  let r := <["sort_by" := opt_str (Some "created_at")]>
             (<["sort_order" := VStr (lower "DESC")]> ∅) in
  r = <["sort_by" := opt_str (Some "created_at")]> (<["sort_order" := VStr (lower "DESC")]> ∅)
  ∧ (lower "DESC" = "asc" ∨ lower "DESC" = "desc")
  ∧ validate_sorting (Some "created_at") (lower "DESC") (Some ["created_at"; "title"])
    = Returned r
  ∧ (∀ field allowed, Some "created_at" = Some field → field ≠ "" →
       Some ["created_at"; "title"] = Some allowed → allowed ≠ [] → field ∈ allowed)
  ∧ (∀ any_field,
       validate_sorting any_field "DESC" None
       = Returned (<["sort_by" := opt_str any_field]>
                  (<["sort_order" := VStr (lower "DESC")]> ∅))).
Proof.
  apply (validate_sorting_normalises_the_order (Some "created_at") "DESC"
           (Some ["created_at"; "title"])).
  reflexivity.
Defined.

(** X28.  [get_cache_ttl] returns one of the five values of its table; it
    returns 7200 exactly when the user role is [admin] or the cache type is
    [admin] (the key under which the table keeps the value for admins); for
    a cache type the table does not have and a role other than [admin] it
    returns the default, 300. *)
Theorem get_cache_ttl_values (cache_type user_role : string) :
  get_cache_ttl cache_type user_role ∈ [300; 600; 1800; 3600; 7200]%Z
  ∧ (get_cache_ttl cache_type user_role = 7200%Z
     ↔ user_role = "admin" ∨ cache_type = "admin")
  ∧ (ttl_map !! cache_type = None → user_role ≠ "admin" →
     get_cache_ttl cache_type user_role = 300%Z).
Proof.
  unfold get_cache_ttl.
  change (ttl_map !! "admin") with (Some 7200%Z).
  change (ttl_map !!! "default") with 300%Z. cbn [default]. unfold id.
  destruct (decide (user_role = "admin")) as [Hr|Hr];
    [rewrite (bool_decide_eq_true_2 _ Hr)|rewrite (bool_decide_eq_false_2 _ Hr)].
  { split; [by repeat constructor|]. split; [split; auto|done]. }
  destruct (ttl_map !! cache_type) as [ttl|] eqn:Ht; cbn [default]; unfold id.
  - unfold ttl_map in Ht.
    repeat (apply lookup_insert_Some in Ht as [[<- <-]|[? Ht]];
            [split; [by repeat constructor|];
             split; [split; [first [discriminate | by right]|by intros [?|?]]|done]|]).
    by rewrite lookup_empty in Ht.
  - split; [by repeat constructor|]. split; [|done].
    split; [discriminate|]. intros [?| ->]; [done|]. discriminate Ht.
Qed.

(** X29.  [list_research_jobs] answers HTTP 500 for every request and
    never calls the research service: the HTTP 400 of the validators is
    caught by its own [except Exception], and for valid parameters the
    dictionary [validate_pagination] returned is read by attribute
    ([pagination.page]), which a dictionary does not have. *)
Theorem list_research_jobs_always_fails
    (list_jobs : value → value → value → value → value → value → value → outcome value)
    (page limit : Z) (status search : value) (sort_by sort_order : string)
    (current_user_id : outcome value) :
  list_research_jobs list_jobs page limit status search sort_by sort_order current_user_id
  = Raised (HTTPException 500 "Failed to list research jobs").
Proof.
  unfold list_research_jobs.
  destruct (validate_pagination page limit 100) as [pagination|e]; [|reflexivity].
  rewrite bind_Returned.
  destruct (validate_sorting (Some sort_by) sort_order None) as [sorting|e]; [|reflexivity].
  rewrite bind_Returned.
  destruct current_user_id as [user_id|e]; reflexivity.
Qed.
